(** * gumdrop: the JNI bridge to quiche (QUIC, HTTP/3) and BoringSSL

    A shallow embedding of the native side of
    [org.bluezoo.gumdrop.quic.QuicheNative]:

    - [quiche_jni.c]  : address decoding, packet and stream I/O, readable
                        streams, packet-header parsing, connection free;
    - [h3_jni.c]      : the thread-local event slot, polling, header
                        retrieval, body and header sending;
    - [ssl_ctx_jni.c] : the per-context ALPN table and the server-side
                        selection callback;
    - [dns_jni.c]     : the system nameservers.

    The quiche engine and the TLS library are external.  Every call the
    bridge makes into quiche is an event of [quicheE]; a JNI function is a
    finite program over these events, so "which engine calls does the bridge
    make, with which arguments, and what does it do with the answers" is a
    property of the program itself.  Pointers and handles are the integers
    the Java side holds ([jlong]); [0] is [NULL].  Where the C code goes on
    after a failure it does not test, into a read of freed memory or a JNI
    call on NULL, the method's [outcome] is [Undefined]. *)

From Equations Require Import Equations.
From Stdlib Require Import ZArith List Bool Lia.
Import ListNotations.
Open Scope Z_scope.

(** ** C and JNI integer conversions *)

(** Conversion to an unsigned [w]-bit type. *)
Definition to_unsigned (w : Z) (z : Z) : Z := z mod 2 ^ w.

(** Conversion to a signed [w]-bit type (two's complement). *)
Definition to_signed (w : Z) (z : Z) : Z :=
  (z + 2 ^ (w - 1)) mod 2 ^ w - 2 ^ (w - 1).

Definition uint8_t : Z -> Z := to_unsigned 8.
Definition uint16_t : Z -> Z := to_unsigned 16.
Definition uint64_t : Z -> Z := to_unsigned 64.
(** [size_t] on the LP64 targets the library is built for. *)
Definition size_t : Z -> Z := to_unsigned 64.
Definition jbyte : Z -> Z := to_signed 8.
Definition jint : Z -> Z := to_signed 32.
Definition jlong : Z -> Z := to_signed 64.

(** A Java [byte[]]: its elements are [jbyte]s, read through the casts the
    source applies. *)
Definition jbyteArray := list Z.

(** A [java.lang.String]: its UTF-16 code units ([jchar]s). *)
Definition jstring := list Z.

(** What a native method leaves its caller with: a result, or nothing that
    C and JNI define. *)
Inductive outcome (R : Type) : Type :=
| Returned (r : R)
| Undefined.

Arguments Returned {R} r.
Arguments Undefined {R}.

(** What the JVM and the C heap grant during one native call: the results
    the source tests, and those it uses untested of [NewLongArray] for the
    readable streams, of [GetLongArrayElements] and of [NewStringUTF].
    [FindClass], [GetArrayLength], [GetObjectArrayElement],
    [GetStringUTFChars] and, in dns_jni.c, [NewObjectArray] are taken to
    succeed. *)
Inductive alloc_site : Type :=
| site_names | site_values            (* hc.names, hc.values *)
| site_grow_names | site_grow_values  (* realloc in header_cb *)
| site_name | site_value              (* the copies n and v in header_cb *)
| site_h3_headers.                    (* the quiche_h3_header array *)

Record JNIEnv : Type := {
  (** [GetByteArrayElements] returns a non-NULL pointer. *)
  GetByteArrayElements_ok : bool;
  (** [GetLongArrayElements] returns a non-NULL pointer. *)
  GetLongArrayElements_ok : bool;
  (** [NewLongArray], [NewByteArray], [NewObjectArray] return non-NULL. *)
  NewArray_ok : bool;
  (** [NewStringUTF] on the given bytes returns non-NULL. *)
  NewStringUTF_ok : list Z -> bool;
  (** The string [NewStringUTF] makes of bytes that are not modified UTF-8,
      which JNI leaves open. *)
  NewStringUTF_malformed : list Z -> jstring;
  (** [malloc]/[realloc] at a site, for the header of the given index,
      returns non-NULL. *)
  malloc_ok : alloc_site -> Z -> bool;
  (** What a read past the end of a pinned array finds, by array and
      index. *)
  stray_byte : list Z -> Z -> Z
}.

(** ** quiche_jni.c: [decode_address] *)

(** The [struct sockaddr_storage] the caller passes in. *)
Inductive sockaddr_storage : Type :=
| ss_untouched                                   (* never written *)
| ss_zeroed                                      (* memset only *)
| ss_in (sin_port : Z) (sin_addr : list Z)       (* AF_INET *)
| ss_in6 (sin6_port : Z) (sin6_addr : list Z).   (* AF_INET6 *)

Definition sizeof_sockaddr_in : Z := 16.
Definition sizeof_sockaddr_in6 : Z := 28.

(** [bytes[i]].  The source reads bytes 0..2 before it looks at the array
    length, so the read may fall past the end of the pinned elements. *)
Definition byte_at (env : JNIEnv) (bytes : jbyteArray) (i : Z) : Z :=
  match nth_error bytes (Z.to_nat i) with
  | Some b => b
  | None => stray_byte env bytes i
  end.

(** [memcpy(dst, bytes + off, n)] for a region inside the array. *)
Definition sub_bytes (bytes : jbyteArray) (off n : nat) : list Z :=
  firstn n (skipn off bytes).

(** Returns the sockaddr length, or 0 on error, with the storage written.
    Ports are kept as the number [htons] stores in network order. *)
Definition decode_address (env : JNIEnv) (addr_arr : jbyteArray)
  : Z * sockaddr_storage :=
  let arr_len := Z.of_nat (length addr_arr) in
  if negb (GetByteArrayElements_ok env) then (0, ss_untouched)
  else
    let family := uint8_t (byte_at env addr_arr 0) in
    let port :=
      uint16_t (Z.lor (Z.shiftl (uint8_t (byte_at env addr_arr 1)) 8)
                      (uint8_t (byte_at env addr_arr 2))) in
    if (family =? 4) && (arr_len >=? 7) then
      (sizeof_sockaddr_in, ss_in port (sub_bytes addr_arr 3 4))
    else if (family =? 6) && (arr_len >=? 19) then
      (sizeof_sockaddr_in6, ss_in6 port (sub_bytes addr_arr 3 16))
    else (0, ss_zeroed).

(** No endpoint was produced in the storage. *)
Definition no_endpoint (ss : sockaddr_storage) : Prop :=
  ss = ss_untouched \/ ss = ss_zeroed.

(** ** The quiche engine, as seen from the bridge *)

(** [quiche_recv_info]: the decoded source and destination of a datagram. *)
Record quiche_recv_info : Type := {
  from : sockaddr_storage; from_len : Z;
  to : sockaddr_storage;   to_len : Z
}.

(** What [quiche_header_info] stores through its out-parameters; the length
    out-parameters are the lengths of the three byte strings. *)
Record header_info_out : Type := {
  hi_version : Z;
  hi_type : Z;
  hi_scid : list Z;
  hi_dcid : list Z;
  hi_token : list Z
}.

(** [quiche_h3_header]: two pointers, here the C strings they point to, and
    the lengths the engine reads from them. *)
Record quiche_h3_header : Type := {
  name : list Z;  name_len : Z;
  value : list Z; value_len : Z
}.

(** [enum quiche_h3_event_type]; [QUICHE_H3_EVENT_OTHER] stands for every
    enumerator the source sends to its [default] branch. *)
Inductive quiche_h3_event_type_t : Type :=
| QUICHE_H3_EVENT_HEADERS
| QUICHE_H3_EVENT_DATA
| QUICHE_H3_EVENT_FINISHED
| QUICHE_H3_EVENT_GOAWAY
| QUICHE_H3_EVENT_RESET
| QUICHE_H3_EVENT_OTHER.

(** [quiche_stream_iter]: the stream IDs the iterator has still to yield.
    [quiche_stream_iter_next(iter, &id)] is false on the empty one and
    otherwise stores the head in [id] and moves on to the tail. *)
Definition quiche_stream_iter := list Z.

(** The calls the bridge makes into quiche.  The index is what the call
    gives back: its return value and what it stored through the
    out-parameters the bridge reads afterwards. *)
Inductive quicheE : Type -> Type :=
| quiche_conn_recv (conn data len : Z) (recv_info : quiche_recv_info)
  : quicheE Z
| quiche_conn_send (conn data len : Z) : quicheE Z
| quiche_conn_stream_recv (conn stream_id data len : Z)
  : quicheE (Z * bool)                        (* recv_len, is_fin *)
| quiche_conn_stream_send (conn stream_id data len : Z) (fin : bool)
  : quicheE Z
| quiche_conn_readable (conn : Z)
  : quicheE (option quiche_stream_iter)       (* None: NULL *)
| quiche_stream_iter_free (iter : quiche_stream_iter) : quicheE unit
| quiche_header_info (data len dcil scid_cap dcid_cap token_cap : Z)
  : quicheE (Z * header_info_out)
| quiche_conn_free (conn : Z) : quicheE unit
| quiche_h3_conn_free (h3 : Z) : quicheE unit
| quiche_h3_event_free (ev : Z) : quicheE unit
| quiche_h3_conn_poll (h3 conn : Z)
  : quicheE (Z * Z)                           (* stream_id, ev *)
| quiche_h3_event_type (ev : Z) : quicheE quiche_h3_event_type_t
| quiche_h3_event_for_each_header (ev : Z)
  : quicheE (list (list Z * list Z))          (* the headers iterated *)
| quiche_h3_recv_body (h3 conn stream_id data len : Z) : quicheE Z
| quiche_h3_send_response (h3 conn stream_id : Z)
    (headers : list quiche_h3_header) (headers_len : Z) (fin : bool)
  : quicheE Z
| quiche_h3_send_body (h3 conn stream_id data len : Z) (fin : bool)
  : quicheE Z
| quiche_h3_send_request (h3 conn : Z)
    (headers : list quiche_h3_header) (headers_len : Z) (fin : bool)
  : quicheE Z.

(** A native method: a finite program that returns, or calls the engine and
    goes on with its answer. *)
Inductive Prog (R : Type) : Type :=
| Ret (r : R)
| Vis {T : Type} (e : quicheE T) (k : T -> Prog R).

Arguments Ret {R} r.
Arguments Vis {R T} e k.

Fixpoint bind {A B : Type} (p : Prog A) (f : A -> Prog B) : Prog B :=
  match p with
  | Ret a => f a
  | Vis e k => Vis e (fun t => bind (k t) f)
  end.

Definition call {T : Type} (e : quicheE T) : Prog T := Vis e Ret.

Declare Scope prog_scope.
Delimit Scope prog_scope with prog.
Notation "x <- c ;; k" := (bind c (fun x => k))
  (at level 61, c at next level, right associativity) : prog_scope.
Notation "' p <- c ;; k" := (bind c (fun x => let p := x in k))
  (at level 61, p pattern, c at next level, right associativity) : prog_scope.
Notation "c ;;; k" := (bind c (fun _ => k))
  (at level 61, right associativity) : prog_scope.
Open Scope prog_scope.

(** An engine: a state and an answer to every call. *)
Definition engine (S : Type) : Type := forall T : Type, quicheE T -> S -> T * S.

(** Running a native method against an engine. *)
Fixpoint run {S R : Type} (eng : engine S) (p : Prog R) (s : S) : R * S :=
  match p with
  | Ret r => (r, s)
  | Vis e k => let (t, s') := eng _ e s in run eng (k t) s'
  end.

(** One engine call, without its answer. *)
Inductive engine_call : Type :=
| Called {T : Type} (e : quicheE T).

(** The engine calls a native method makes, in order. *)
Fixpoint calls {S R : Type} (eng : engine S) (p : Prog R) (s : S)
  : list engine_call :=
  match p with
  | Ret _ => []
  | Vis e k => let (t, s') := eng _ e s in Called e :: calls eng (k t) s'
  end.

(** ** Java objects *)

(** A [java.nio.ByteBuffer] as the bridge sees it. *)
Record ByteBuffer : Type := {
  (** [GetDirectBufferAddress]: 0 (NULL) when the buffer is not direct. *)
  GetDirectBufferAddress : Z;
  (** [buf.position()]. *)
  position : Z;
  (** [buf.array()] pinned by [GetByteArrayElements]: [None] when the call
      raises an exception, [Some 0] when pinning returns NULL. *)
  array_elements : option Z;
  (** [buf.arrayOffset()]. *)
  arrayOffset : Z
}.

(** Every element of a string is a 16-bit code unit. *)
Definition jstring_wf (s : jstring) : Prop :=
  Forall (fun c => 0 <= c < 65536) s.

(** Modified UTF-8, the encoding of strings in JNI: the code units U+0001 to
    U+007F take one byte [0xxxxxxx]; U+0000 and U+0080 to U+07FF take two,
    [110xxxxx 10xxxxxx]; U+0800 to U+FFFF take three,
    [1110xxxx 10xxxxxx 10xxxxxx].  A supplementary character is the two
    surrogates of its UTF-16 form, three bytes each; there is no four-byte
    form and no zero byte. *)
Definition mutf8_char (c : Z) : list Z :=
  if (1 <=? c) && (c <=? 127) then [c]
  else if c <=? 2047 then [192 + c / 64; 128 + c mod 64]
  else [224 + c / 4096; 128 + c / 64 mod 64; 128 + c mod 64].

Definition mutf8_encode (s : jstring) : list Z := flat_map mutf8_char s.

(** The string that bytes are the modified UTF-8 encoding of, if any. *)
Fixpoint mutf8_decode (bytes : list Z) : option jstring :=
  match bytes with
  | [] => Some []
  | b0 :: rest =>
      if (1 <=? b0) && (b0 <=? 127) then
        option_map (cons b0) (mutf8_decode rest)
      else if (192 <=? b0) && (b0 <=? 223) then
        match rest with
        | b1 :: rest =>
            let c := (b0 - 192) * 64 + (b1 - 128) in
            if (128 <=? b1) && (b1 <=? 191) && ((c =? 0) || (128 <=? c))
            then option_map (cons c) (mutf8_decode rest)
            else None
        | [] => None
        end
      else if (224 <=? b0) && (b0 <=? 239) then
        match rest with
        | b1 :: b2 :: rest =>
            let c := (b0 - 224) * 4096 + (b1 - 128) * 64 + (b2 - 128) in
            if (128 <=? b1) && (b1 <=? 191) && (128 <=? b2) && (b2 <=? 191)
               && (2048 <=? c)
            then option_map (cons c) (mutf8_decode rest)
            else None
        | _ => None
        end
      else None
  end.

(** The C string a pointer points to, up to its terminator. *)
Fixpoint c_str (p : list Z) : list Z :=
  match p with
  | [] => []
  | b :: rest => if b =? 0 then [] else b :: c_str rest
  end.

Definition strlen (p : list Z) : Z := Z.of_nat (length (c_str p)).

(** The string [NewStringUTF] makes of a C string, when it makes one. *)
Definition utf_string (env : JNIEnv) (p : list Z) : jstring :=
  match mutf8_decode (c_str p) with
  | Some s => s
  | None => NewStringUTF_malformed env (c_str p)
  end.

(** [NewStringUTF(env, p)]; [None] is NULL. *)
Definition NewStringUTF (env : JNIEnv) (p : list Z) : option jstring :=
  if negb (NewStringUTF_ok env (c_str p)) then None
  else Some (utf_string env p).

(** [GetStringUTFChars(env, s, NULL)]: the encoding and its terminator. *)
Definition GetStringUTFChars (s : jstring) : list Z := mutf8_encode s ++ [0].

(** ** quiche_jni.c

    The native methods of [QuicheNative] carry their Java names as JNI
    mangles them ([Java_org_bluezoo_gumdrop_quic_QuicheNative_] dropped);
    one module per source file. *)

Module quiche_jni.

(** [QUICHE_MAX_CONN_ID_LEN] of quiche.h. *)
Definition QUICHE_MAX_CONN_ID_LEN : Z := 20.

(** [sizeof(token)] for [uint8_t token[64]]. *)
Definition sizeof_token : Z := 64.

(** [QUICHE_ERR_DONE] of quiche.h. *)
Definition QUICHE_ERR_DONE : Z := -1.

Definition quiche_1conn_1recv (env : JNIEnv) (conn_ptr : Z)
    (buf : ByteBuffer) (len : Z) (from_addr to_addr : jbyteArray) : Prog Z :=
  let conn := conn_ptr in
  let data := GetDirectBufferAddress buf in
  if data =? 0 then Ret (-1)
  else
    let '(from_len, from_ss) := decode_address env from_addr in
    let '(to_len, to_ss) := decode_address env to_addr in
    let recv_info :=
      {| from := from_ss; from_len := from_len;
         to := to_ss; to_len := to_len |} in
    recv_len <- call (quiche_conn_recv conn data (size_t len) recv_info) ;;
    Ret (jint recv_len).

Definition quiche_1conn_1send (env : JNIEnv) (conn_ptr : Z)
    (buf : ByteBuffer) (len : Z) : Prog Z :=
  let conn := conn_ptr in
  let data := GetDirectBufferAddress buf in
  if data =? 0 then Ret (-1)
  else
    written <- call (quiche_conn_send conn data (size_t len)) ;;
    Ret (jint written).

(** Returns the [jint] and what was stored into [fin[0]], if anything. *)
Definition quiche_1conn_1stream_1recv (env : JNIEnv) (conn_ptr stream_id : Z)
    (buf : ByteBuffer) (len : Z) : Prog (Z * option bool) :=
  let conn := conn_ptr in
  let data := GetDirectBufferAddress buf in
  if data =? 0 then Ret (-1, None)
  else
    '(recv_len, is_fin) <-
      call (quiche_conn_stream_recv conn (uint64_t stream_id) data
              (size_t len)) ;;
    if recv_len >=? 0 then Ret (jint recv_len, Some is_fin)
    else Ret (jint recv_len, None).

Definition quiche_1conn_1stream_1send (env : JNIEnv) (conn_ptr stream_id : Z)
    (buf : ByteBuffer) (len : Z) (fin : bool) : Prog Z :=
  let conn := conn_ptr in
  let data := GetDirectBufferAddress buf in
  if data =? 0 then Ret (-1)
  else
    sent <- call (quiche_conn_stream_send conn (uint64_t stream_id) data
                    (size_t len) fin) ;;
    Ret (jint sent).

(** The loop
    [while (quiche_stream_iter_next(iter, &id) && count < 256)
       ids[count++] = id;]
    on the initialised part [ids[0..count)] of the buffer; it returns that
    part and the iterator as the loop leaves it. *)
Fixpoint collect_ids (iter : quiche_stream_iter) (count : Z) (ids : list Z)
  : list Z * quiche_stream_iter :=
  match iter with
  | [] => (ids, [])
  | id :: rest =>
      if count <? 256 then collect_ids rest (count + 1) (ids ++ [id])
      else (ids, rest)
  end.

(** [NewLongArray(env, length)]: [length] zeroes, or [None] for NULL. *)
Definition NewLongArray (env : JNIEnv) (length : Z) : option (list Z) :=
  if NewArray_ok env then Some (repeat 0 (Z.to_nat length)) else None.

(** The result of [NewLongArray] is not tested: with stream IDs collected a
    NULL array goes on to [GetLongArrayElements], and a NULL from that call
    is written through. *)
Definition quiche_1conn_1readable (env : JNIEnv) (conn_ptr : Z)
  : Prog (outcome (option (list Z))) :=
  let conn := conn_ptr in
  iter <- call (quiche_conn_readable conn) ;;
  match iter with
  | None => Ret (Returned (NewLongArray env 0))
  | Some iter =>
      let '(ids, iter') := collect_ids iter 0 [] in
      let count := Z.of_nat (length ids) in
      call (quiche_stream_iter_free iter') ;;;
      let result := NewLongArray env count in
      if count >? 0 then
        match result with
        | None => Ret Undefined
        | Some _ =>
            if negb (GetLongArrayElements_ok env) then Ret Undefined
            else Ret (Returned (Some (map jlong ids)))
        end
      else Ret (Returned result)
  end.

(** [SetByteArrayRegion(env, array, start, len, buf)]; out of range it
    raises and leaves the array as it is. *)
Definition SetByteArrayRegion (array : jbyteArray) (start len : Z)
    (buf : list Z) : jbyteArray :=
  if (start <? 0) || (len <? 0) || (Z.of_nat (length array) <? start + len)
  then array
  else firstn (Z.to_nat start) array
       ++ firstn (Z.to_nat len) buf
       ++ skipn (Z.to_nat (start + len)) array.

(** [NewByteArray(env, n)]: [n] zero bytes. *)
Definition NewByteArray (n : Z) : jbyteArray := repeat 0 (Z.to_nat n).

(** The array filled in after a successful [quiche_header_info]. *)
Definition header_info_result (out : header_info_out) : jbyteArray :=
  let version := hi_version out in
  let dcid_len := Z.of_nat (length (hi_dcid out)) in
  let scid_len := Z.of_nat (length (hi_scid out)) in
  let token_len := Z.of_nat (length (hi_token out)) in
  let result_len :=
    4 + 1 + 1 + jint dcid_len + 1 + jint scid_len + 1 + jint token_len in
  let result := NewByteArray result_len in
  let ver_bytes :=
    [ jbyte (Z.land (Z.shiftr version 24) 255);
      jbyte (Z.land (Z.shiftr version 16) 255);
      jbyte (Z.land (Z.shiftr version 8) 255);
      jbyte (Z.land version 255) ] in
  let off := 0 in
  let result := SetByteArrayRegion result off 4 ver_bytes in
  let off := off + 4 in
  let result := SetByteArrayRegion result off 1 [jbyte (hi_type out)] in
  let off := off + 1 in
  let result := SetByteArrayRegion result off 1 [jbyte dcid_len] in
  let off := off + 1 in
  let result :=
    SetByteArrayRegion result off (jint dcid_len) (map jbyte (hi_dcid out)) in
  let off := off + jint dcid_len in
  let result := SetByteArrayRegion result off 1 [jbyte scid_len] in
  let off := off + 1 in
  let result :=
    SetByteArrayRegion result off (jint scid_len) (map jbyte (hi_scid out)) in
  let off := off + jint scid_len in
  let result := SetByteArrayRegion result off 1 [jbyte token_len] in
  let off := off + 1 in
  SetByteArrayRegion result off (jint token_len) (map jbyte (hi_token out)).

Definition quiche_1header_1info (env : JNIEnv) (buf : ByteBuffer) (len : Z)
  : Prog (option jbyteArray) :=
  let data := GetDirectBufferAddress buf in
  if data =? 0 then Ret None
  else
    '(rc, out) <-
      call (quiche_header_info data (size_t len) QUICHE_MAX_CONN_ID_LEN
              QUICHE_MAX_CONN_ID_LEN QUICHE_MAX_CONN_ID_LEN sizeof_token) ;;
    if rc <? 0 then Ret None
    else if negb (NewArray_ok env) then Ret None
    else Ret (Some (header_info_result out)).


End quiche_jni.

(** ** h3_jni.c

    [static __thread quiche_h3_event *current_event]: one slot per thread,
    shared by every native method run on that thread.  The methods that
    touch it take its value and return the new one. *)

Module h3_jni.

Import quiche_jni.

(** [struct header_collector].  [names] and [values] hold the initialised
    part [[0..count)] of the two arrays; each entry is a NUL-terminated
    copy.  [count] and [capacity] are [int]s.  The fields [env] and [array]
    are never read.  [names_freed] and [values_freed] are not in the struct:
    they record that the block the pointer [names], or [values], refers to
    has been freed. *)
Record header_collector : Type := {
  count : Z;
  capacity : Z;
  names : list (list Z);
  values : list (list Z);
  names_freed : bool;
  values_freed : bool
}.

(** The two copies and the store, once there is room. *)
Definition store_header (env : JNIEnv) (name : list Z) (name_len : Z)
    (value : list Z) (value_len : Z) (hc : header_collector)
  : outcome (Z * header_collector) :=
  if negb (malloc_ok env site_name (count hc))
     || negb (malloc_ok env site_value (count hc))
  then Returned (-1, hc)
  else
    let n := firstn (Z.to_nat name_len) name ++ [0] in
    let v := firstn (Z.to_nat value_len) value ++ [0] in
    Returned (0, {| count := count hc + 1; capacity := capacity hc;
                    names := names hc ++ [n]; values := values hc ++ [v];
                    names_freed := names_freed hc;
                    values_freed := values_freed hc |}).

(** [capacity * 2] is an [int] product, undefined when it overflows.  When
    one [realloc] gives a block and the other gives NULL, the source frees
    the block it was given, which is where the collector's array now lives,
    and leaves the collector pointing to it. *)
Definition header_cb (env : JNIEnv) (name : list Z) (name_len : Z)
    (value : list Z) (value_len : Z) (hc : header_collector)
  : outcome (Z * header_collector) :=
  if count hc >=? capacity hc then
    let new_cap := capacity hc * 2 in
    if (new_cap <? - 2 ^ 31) || (2 ^ 31 <=? new_cap) then Undefined
    else
      let new_names := malloc_ok env site_grow_names (count hc) in
      let new_values := malloc_ok env site_grow_values (count hc) in
      if negb new_names || negb new_values then
        Returned (-1, {| count := count hc; capacity := capacity hc;
                         names := names hc; values := values hc;
                         names_freed := names_freed hc || new_names;
                         values_freed := values_freed hc || new_values |})
      else
        store_header env name name_len value value_len
          {| count := count hc; capacity := new_cap;
             names := names hc; values := values hc;
             names_freed := names_freed hc;
             values_freed := values_freed hc |}
  else store_header env name name_len value value_len hc.

(** How [quiche_h3_event_for_each_header] drives its callback: once per
    header, in order, stopping at the first non-zero result, which it
    returns. *)
Fixpoint for_each_header {A : Type} (headers : list (list Z * list Z))
    (cb : list Z -> Z -> list Z -> Z -> A -> outcome (Z * A)) (argp : A)
  : outcome (Z * A) :=
  match headers with
  | [] => Returned (0, argp)
  | (n, v) :: rest =>
      match cb n (Z.of_nat (length n)) v (Z.of_nat (length v)) argp with
      | Undefined => Undefined
      | Returned (rc, argp') =>
          if rc =? 0 then for_each_header rest cb argp'
          else Returned (rc, argp')
      end
  end.

(** The flat [String[]] [name0, value0, name1, value1, ...]; an element is
    NULL where [NewStringUTF] gave NULL. *)
Definition flat_strings (env : JNIEnv) (hc : header_collector)
  : list (option jstring) :=
  flat_map
    (fun i => [ NewStringUTF env (nth i (names hc) []);
                NewStringUTF env (nth i (values hc) []) ])
    (seq 0 (Z.to_nat (count hc))).

Definition quiche_1h3_1conn_1free (env : JNIEnv) (h3_conn_ptr : Z)
    (current_event : Z) : Prog (unit * Z) :=
  let h3 := h3_conn_ptr in
  call (quiche_h3_conn_free h3) ;;;
  if negb (current_event =? 0) then
    call (quiche_h3_event_free current_event) ;;;
    Ret (tt, 0)
  else Ret (tt, current_event).

(** Returns [Some (stream_id, event_type)] for the two-element [long[]],
    [None] for [NULL]. *)
Definition quiche_1h3_1conn_1poll (env : JNIEnv) (h3_conn_ptr : Z)
    (quiche_conn_ptr : Z) (current_event : Z)
  : Prog (option (Z * Z) * Z) :=
  let h3 := h3_conn_ptr in
  let conn := quiche_conn_ptr in
  (if negb (current_event =? 0)
   then call (quiche_h3_event_free current_event)
   else Ret tt) ;;;
  let current_event := 0 in
  '(stream_id, ev) <- call (quiche_h3_conn_poll h3 conn) ;;
  if stream_id <? 0 then Ret (None, current_event)
  else
    let current_event := ev in
    ty <- call (quiche_h3_event_type ev) ;;
    let event_type :=
      match ty with
      | QUICHE_H3_EVENT_HEADERS => 0
      | QUICHE_H3_EVENT_DATA => 1
      | QUICHE_H3_EVENT_FINISHED => 2
      | QUICHE_H3_EVENT_GOAWAY => 3
      | QUICHE_H3_EVENT_RESET => 4
      | QUICHE_H3_EVENT_OTHER => -1
      end in
    if negb (NewArray_ok env) then Ret (None, current_event)
    else Ret (Some (jlong stream_id, jlong event_type), current_event).

(** Returns the flat [String[]], or [None] for [NULL].  Both ways out
    read the two arrays and free them; [hc.count * 2] is an [int]
    product. *)
Definition quiche_1h3_1event_1headers (env : JNIEnv) (h3_conn_ptr : Z)
    (current_event : Z) : Prog (outcome (option (list (option jstring)))) :=
  if current_event =? 0 then Ret (Returned None)
  else if negb (malloc_ok env site_names 0)
          || negb (malloc_ok env site_values 0)
  then Ret (Returned None)
  else
    let hc := {| count := 0; capacity := 32; names := []; values := [];
                 names_freed := false; values_freed := false |} in
    headers <- call (quiche_h3_event_for_each_header current_event) ;;
    match for_each_header headers (header_cb env) hc with
    | Undefined => Ret Undefined
    | Returned (rc, hc) =>
        if names_freed hc || values_freed hc then Ret Undefined
        else if negb (rc =? 0) then Ret (Returned None)
        else if 2 ^ 31 <=? count hc * 2 then Ret Undefined
        else if negb (NewArray_ok env) then Ret (Returned None)
        else Ret (Returned (Some (flat_strings env hc)))
    end.

Definition quiche_1h3_1recv_1body (env : JNIEnv)
    (h3_conn_ptr quiche_conn_ptr stream_id : Z) (buf : ByteBuffer) (len : Z)
  : Prog Z :=
  let h3 := h3_conn_ptr in
  let conn := quiche_conn_ptr in
  let data := GetDirectBufferAddress buf in
  if data =? 0 then Ret (-1)
  else
    recv_len <- call (quiche_h3_recv_body h3 conn (uint64_t stream_id) data
                        (size_t len)) ;;
    Ret (jint recv_len).

(** The [quiche_h3_header] array both send methods fill from the flat
    [String[]]. *)
Definition fill_h3_headers (headers : list jstring) (num_headers : Z)
  : list quiche_h3_header :=
  map
    (fun i =>
       let jname := nth (i * 2) headers [] in
       let jvalue := nth (i * 2 + 1) headers [] in
       let name := GetStringUTFChars jname in
       let value := GetStringUTFChars jvalue in
       {| name := name; name_len := strlen name;
          value := value; value_len := strlen value |})
    (seq 0 (Z.to_nat num_headers)).

Definition quiche_1h3_1send_1response (env : JNIEnv)
    (h3_conn_ptr quiche_conn_ptr stream_id : Z) (headers : list jstring)
    (fin : bool) : Prog Z :=
  let h3 := h3_conn_ptr in
  let conn := quiche_conn_ptr in
  let header_count := Z.of_nat (length headers) in
  let num_headers := Z.quot header_count 2 in
  if negb (malloc_ok env site_h3_headers 0) then Ret (-1)
  else
    let h3_headers := fill_h3_headers headers num_headers in
    rc <- call (quiche_h3_send_response h3 conn (uint64_t stream_id)
                  h3_headers (size_t num_headers) fin) ;;
    Ret (jint rc).

Definition quiche_1h3_1send_1body (env : JNIEnv)
    (h3_conn_ptr quiche_conn_ptr stream_id : Z) (buf : ByteBuffer) (len : Z)
    (fin : bool) : Prog Z :=
  let h3 := h3_conn_ptr in
  let conn := quiche_conn_ptr in
  if len =? 0 then
    written <- call (quiche_h3_send_body h3 conn (uint64_t stream_id) 0 0
                       fin) ;;
    Ret (jint written)
  else
    let pos := position buf in
    let data := GetDirectBufferAddress buf in
    if negb (data =? 0) then
      let data := data + pos in
      written <- call (quiche_h3_send_body h3 conn (uint64_t stream_id) data
                         (size_t len) fin) ;;
      Ret (jint written)
    else
      match array_elements buf with
      | None => Ret QUICHE_ERR_DONE
      | Some bytes =>
          let offset := jint (arrayOffset buf + pos) in
          if bytes =? 0 then Ret QUICHE_ERR_DONE
          else
            written <- call (quiche_h3_send_body h3 conn
                               (uint64_t stream_id) (bytes + offset)
                               (size_t len) fin) ;;
            Ret (jint written)
      end.

Definition quiche_1h3_1send_1request (env : JNIEnv)
    (h3_conn_ptr quiche_conn_ptr : Z) (headers : list jstring) (fin : bool)
  : Prog Z :=
  let h3 := h3_conn_ptr in
  let conn := quiche_conn_ptr in
  let header_count := Z.of_nat (length headers) in
  let num_headers := Z.quot header_count 2 in
  if negb (malloc_ok env site_h3_headers 0) then Ret (-1)
  else
    let h3_headers := fill_h3_headers headers num_headers in
    stream_id <- call (quiche_h3_send_request h3 conn h3_headers
                         (size_t num_headers) fin) ;;
    Ret (jlong stream_id).

End h3_jni.

(** ** The TLS library, as the bridge uses it

    BoringSSL is not part of this repository.  The three functions below are
    written from their contract in [openssl/ssl.h]; everything else the
    bridge configures on an [SSL_CTX] is a field it stores. *)

Inductive npn_status : Type :=
| OPENSSL_NPN_UNSUPPORTED
| OPENSSL_NPN_NEGOTIATED
| OPENSSL_NPN_NO_OVERLAP.

Inductive tlsext_err : Type :=
| SSL_TLSEXT_ERR_OK
| SSL_TLSEXT_ERR_ALERT_WARNING
| SSL_TLSEXT_ERR_ALERT_FATAL
| SSL_TLSEXT_ERR_NOACK.

(** [memcmp] on two byte strings with their lengths. *)
Fixpoint bytes_eqb (p q : list Z) : bool :=
  match p, q with
  | [], [] => true
  | a :: p', b :: q' => (a =? b) && bytes_eqb p' q'
  | _, _ => false
  end.

(** The protocols of an ALPN wire-format list: 8-bit length-prefixed,
    non-empty byte strings, none truncated. *)
Equations? alpn_list (l : list Z) : option (list (list Z))
  by wf (length l) lt :=
  alpn_list [] := Some [];
  alpn_list (n :: rest) with (n <=? 0) || (Z.of_nat (length rest) <? n) := {
    | true := None
    | false := option_map (cons (firstn (Z.to_nat n) rest))
                          (alpn_list (skipn (Z.to_nat n) rest)) }.
Proof. rewrite length_skipn. simpl. lia. Qed.

(** [ssl_is_valid_alpn_list]: a well-formed list that is not empty. *)
Definition ssl_is_valid_alpn_list (l : list Z) : option (list (list Z)) :=
  match l with
  | [] => None
  | _ => alpn_list l
  end.

(** [SSL_select_next_proto(out, out_len, peer, peer_len, supported,
    supported_len)]: finds the first protocol in [peer] which is also in
    [supported]; then it stores it in [out] and returns
    [OPENSSL_NPN_NEGOTIATED].  Otherwise it returns [OPENSSL_NPN_NO_OVERLAP]
    with the first supported protocol in [out]; on a malformed list, with
    nothing in [out]. *)
Definition SSL_select_next_proto (peer supported : list Z)
  : npn_status * option (list Z) :=
  match (match peer with [] => Some [] | _ => ssl_is_valid_alpn_list peer end),
        ssl_is_valid_alpn_list supported with
  | Some peer_protos, Some supported_protos =>
      match find (fun proto => existsb (bytes_eqb proto) supported_protos)
                 peer_protos with
      | Some proto => (OPENSSL_NPN_NEGOTIATED, Some proto)
      | None => (OPENSSL_NPN_NO_OVERLAP, hd_error supported_protos)
      end
  | _, _ => (OPENSSL_NPN_NO_OVERLAP, None)
  end.

(** [SSL_CTX_set_alpn_protos]: 0 on success (the return value is backwards),
    1 when the list is neither empty nor well formed. *)
Definition SSL_CTX_set_alpn_protos (protos : list Z) : Z :=
  match protos with
  | [] => 0
  | _ => match ssl_is_valid_alpn_list protos with Some _ => 0 | None => 1 end
  end.

(** ** ssl_ctx_jni.c *)

Module ssl_ctx_jni.

(** [alpn_protos_t]: per-SSL_CTX storage for the supported ALPN wire-format
    bytes. *)
Record alpn_protos_t : Type := {
  data : list Z;
  len : Z
}.

(** What the bridge sets on an [SSL_CTX] for ALPN. *)
Record SSL_CTX : Type := {
  (** The list advertised as client, once set successfully. *)
  alpn_client_proto_list : list Z;
  (** [SSL_CTX_get_ex_data(ctx, ssl_ctx_ex_data_index)]; [None] is NULL. *)
  ex_data : option alpn_protos_t;
  (** The callback given to [SSL_CTX_set_alpn_select_cb], if any. *)
  alpn_select_cb_set : bool
}.

(** The callback: its return value and what it leaves in [out]. *)
Definition alpn_select_cb (ctx : SSL_CTX) (in_ : list Z)
  : tlsext_err * option (list Z) :=
  match ex_data ctx with
  | None => (SSL_TLSEXT_ERR_NOACK, None)
  | Some protos =>
      match SSL_select_next_proto
              (firstn (Z.to_nat (len protos)) (data protos)) in_ with
      | (OPENSSL_NPN_NEGOTIATED, out) => (SSL_TLSEXT_ERR_OK, out)
      | (_, out) => (SSL_TLSEXT_ERR_NOACK, out)
      end
  end.

Definition ssl_1ctx_1set_1alpn_1protos (env : JNIEnv) (ctx : SSL_CTX)
    (protos : jbyteArray) : Z * SSL_CTX :=
  let buf := map uint8_t protos in
  let len := Z.of_nat (length protos) in
  let ret := SSL_CTX_set_alpn_protos buf in
  let ap := {| data := firstn (Z.to_nat len) buf;
               len := to_unsigned 32 len |} in
  let ctx :=
    {| alpn_client_proto_list :=
         if ret =? 0 then buf else alpn_client_proto_list ctx;
       ex_data := Some ap;
       alpn_select_cb_set := true |} in
  (if ret =? 0 then 0 else -1, ctx).

End ssl_ctx_jni.

(** The first element of [l] that also occurs in [m]. *)
Definition first_common {A : Type} (p : A) (l m : list A) : Prop :=
  exists pre post,
    l = pre ++ p :: post /\ In p m /\ forall q, In q pre -> ~ In q m.

(** ** Sample engines

    Concrete engines on which the native methods are run in the examples
    below. *)

(** An engine with nothing to report. *)
Definition idle_engine : engine unit :=
  fun T e s =>
    match e in quicheE T return T * unit with
    | quiche_conn_recv _ _ _ _ => (0, s)
    | quiche_conn_send _ _ _ => (-1, s)
    | quiche_conn_stream_recv _ _ _ _ => ((0, false), s)
    | quiche_conn_stream_send _ _ _ _ _ => (0, s)
    | quiche_conn_readable _ => (None, s)
    | quiche_stream_iter_free _ => (tt, s)
    | quiche_header_info _ _ _ _ _ _ =>
        ((-1, {| hi_version := 0; hi_type := 0; hi_scid := [];
                 hi_dcid := []; hi_token := [] |}), s)
    | quiche_conn_free _ => (tt, s)
    | quiche_h3_conn_free _ => (tt, s)
    | quiche_h3_event_free _ => (tt, s)
    | quiche_h3_conn_poll _ _ => ((-1, 0), s)
    | quiche_h3_event_type _ => (QUICHE_H3_EVENT_OTHER, s)
    | quiche_h3_event_for_each_header _ => ([], s)
    | quiche_h3_recv_body _ _ _ _ _ => (-1, s)
    | quiche_h3_send_response _ _ _ _ _ _ => (0, s)
    | quiche_h3_send_body _ _ _ _ _ _ => (0, s)
    | quiche_h3_send_request _ _ _ _ _ => (0, s)
    end.

(** An HTTP/3 engine that reports the events of a script: its state is the
    queue of [(h3, stream_id, ev)] still to deliver; an event at address
    [ev] is a Headers event carrying [headers_at ev]. *)
Definition scripted_engine (headers_at : Z -> list (list Z * list Z))
  : engine (list (Z * Z * Z)) :=
  fun T e s =>
    match e in quicheE T return T * list (Z * Z * Z) with
    | quiche_h3_conn_poll h3 _ =>
        match s with
        | (h3', stream_id, ev) :: rest =>
            if h3 =? h3' then ((stream_id, ev), rest) else ((-1, 0), s)
        | [] => ((-1, 0), s)
        end
    | quiche_h3_event_type _ => (QUICHE_H3_EVENT_HEADERS, s)
    | quiche_h3_event_for_each_header ev => (headers_at ev, s)
    | e' => let (t, _) := idle_engine _ e' tt in (t, s)
    end.

(** An engine whose connections all have the given streams readable. *)
Definition readable_engine (ids : list Z) : engine unit :=
  fun T e s =>
    match e in quicheE T return T * unit with
    | quiche_conn_readable _ => (Some ids, s)
    | e' => idle_engine _ e' s
    end.

(** A JVM and heap that grant everything, with zeroes past every array and
    U+FFFD for bytes that are not modified UTF-8. *)
Definition plain_env : JNIEnv :=
  {| GetByteArrayElements_ok := true;
     GetLongArrayElements_ok := true;
     NewArray_ok := true;
     NewStringUTF_ok := fun _ => true;
     NewStringUTF_malformed := fun _ => [65533];
     malloc_ok := fun _ _ => true;
     stray_byte := fun _ _ => 0 |}.

(** A JVM that has no memory left for a new array. *)
Definition no_array_env : JNIEnv :=
  {| GetByteArrayElements_ok := true;
     GetLongArrayElements_ok := true;
     NewArray_ok := false;
     NewStringUTF_ok := fun _ => true;
     NewStringUTF_malformed := fun _ => [65533];
     malloc_ok := fun _ _ => true;
     stray_byte := fun _ _ => 0 |}.

(** A heap on which, when the collector grows at its 33rd header, the first
    [realloc] succeeds and the second fails. *)
Definition half_grown_env : JNIEnv :=
  {| GetByteArrayElements_ok := true;
     GetLongArrayElements_ok := true;
     NewArray_ok := true;
     NewStringUTF_ok := fun _ => true;
     NewStringUTF_malformed := fun _ => [65533];
     malloc_ok := fun site _ =>
       match site with site_grow_values => false | _ => true end;
     stray_byte := fun _ _ => 0 |}.

(** A direct buffer at address 4096, and a heap buffer over a pinned array. *)
Definition direct_buffer : ByteBuffer :=
  {| GetDirectBufferAddress := 4096; position := 0;
     array_elements := None; arrayOffset := 0 |}.

Definition heap_buffer : ByteBuffer :=
  {| GetDirectBufferAddress := 0; position := 0;
     array_elements := Some 8192; arrayOffset := 0 |}.

(** A native method that returns [r] without calling the engine: whatever
    the engine and its state, the state is left as it was. *)
Definition returns_without_engine {R : Type} (p : Prog R) (r : R) : Prop :=
  forall (S : Type) (eng : engine S) (s : S),
    run eng p s = (r, s) /\ calls eng p s = [].

(** ** The packet-header-info layout, as documented

    [[version (4 bytes, big-endian)] [type (1 byte)]
     [dcid_len (1 byte)] [dcid] [scid_len (1 byte)] [scid]
     [token_len (1 byte)] [token]], each byte as the [jbyte] of a Java
    [byte[]]. *)

(** The four bytes of a 32-bit number, most significant first. *)
Definition be32 (v : Z) : list Z :=
  [ v / 2 ^ 24 mod 2 ^ 8; v / 2 ^ 16 mod 2 ^ 8; v / 2 ^ 8 mod 2 ^ 8;
    v mod 2 ^ 8 ].

Definition header_info_layout (out : header_info_out) : jbyteArray :=
  map jbyte (be32 (hi_version out))
  ++ [jbyte (hi_type out)]
  ++ [Z.of_nat (length (hi_dcid out))] ++ map jbyte (hi_dcid out)
  ++ [Z.of_nat (length (hi_scid out))] ++ map jbyte (hi_scid out)
  ++ [Z.of_nat (length (hi_token out))] ++ map jbyte (hi_token out).

(** What the engine may store, given the types and the three buffers it is
    handed: a [uint32_t] version and connection IDs and a token no longer
    than their buffers. *)
Definition header_info_fits (out : header_info_out) : Prop :=
  0 <= hi_version out < 2 ^ 32 /\
  Z.of_nat (length (hi_scid out)) <= quiche_jni.QUICHE_MAX_CONN_ID_LEN /\
  Z.of_nat (length (hi_dcid out)) <= quiche_jni.QUICHE_MAX_CONN_ID_LEN /\
  Z.of_nat (length (hi_token out)) <= quiche_jni.sizeof_token.

(** An engine that parses every packet to the same header. *)
Definition header_engine (out : header_info_out) : engine unit :=
  fun T e s =>
    match e in quicheE T return T * unit with
    | quiche_header_info _ _ _ _ _ _ => ((0, out), s)
    | e' => idle_engine _ e' s
    end.

(** A version-1 Initial packet header with two 8-byte connection IDs and no
    token. *)
Definition crafted_header : header_info_out :=
  {| hi_version := 1; hi_type := 1;
     hi_scid := [17; 18; 19; 20; 21; 22; 23; 24];
     hi_dcid := [1; 2; 3; 4; 5; 6; 7; 200];
     hi_token := [] |}.

(** ** Header lists, as the two sides see them *)

(** The bytes of a header the engine reads from a [quiche_h3_header]. *)
Definition header_bytes (h : quiche_h3_header) : list Z * list Z :=
  (firstn (Z.to_nat (name_len h)) (name h),
   firstn (Z.to_nat (value_len h)) (value h)).





(** Every string of the call is allocated. *)
Definition strings_allocated (env : JNIEnv) : Prop :=
  forall bytes, NewStringUTF_ok env bytes = true.

(** ** Scenarios on the event slot *)

(** Two events with their header lists: [:status: 200] at address 100,
    [:status: 404] and [x: y] at address 200. *)
Definition sample_headers (ev : Z) : list (list Z * list Z) :=
  if ev =? 100 then [([58; 115], [50; 48; 48])]
  else if ev =? 200 then [([58; 115], [52; 48; 52]); ([120], [121])]
  else [].

(** The engine state a poll hands to [quiche_h3_conn_poll]: the state after
    the release of what the slot held. *)
Definition after_release {S : Type} (eng : engine S) (slot : Z) (s : S) : S :=
  if slot =? 0 then s else snd (eng unit (quiche_h3_event_free slot) s).

(** Poll session [a], then session [b], then read the headers through
    session [a]; the slot starts empty. *)
Definition poll_poll_headers (env : JNIEnv) (a b conn : Z)
  : Prog (outcome (option (list (option jstring)))) :=
  '(_, slot) <- h3_jni.quiche_1h3_1conn_1poll env a conn 0 ;;
  '(_, slot) <- h3_jni.quiche_1h3_1conn_1poll env b conn slot ;;
  h3_jni.quiche_1h3_1event_1headers env a slot.

(** ** ALPN scenarios *)

(** A context on which nothing was set. *)
Definition fresh_ctx : ssl_ctx_jni.SSL_CTX :=
  {| ssl_ctx_jni.alpn_client_proto_list := [];
     ssl_ctx_jni.ex_data := None;
     ssl_ctx_jni.alpn_select_cb_set := false |}.

(** The protocol names "h3", "h2" and "spdy". *)
Definition proto_h3 : list Z := [104; 51].
Definition proto_h2 : list Z := [104; 50].
Definition proto_spdy : list Z := [115; 112; 100; 121].

(** The wire format of a protocol list. *)
Definition alpn_wire (protos : list (list Z)) : list Z :=
  flat_map (fun p => Z.of_nat (length p) :: p) protos.

(** ** Handles in engine calls *)



(** ** Engine calls with their answers *)

(** One engine call and what the engine gave back. *)
Inductive engine_answer : Type :=
| Answered {T : Type} (e : quicheE T) (t : T).

(** The engine calls a native method makes, with their answers, in order. *)
Fixpoint transcript {S R : Type} (eng : engine S) (p : Prog R) (s : S)
  : list engine_answer :=
  match p with
  | Ret _ => []
  | Vis e k => let (t, s') := eng _ e s in Answered e t :: transcript eng (k t) s'
  end.

(** The event a [quiche_h3_event_free] call releases. *)
Definition released (a : engine_answer) : list Z :=
  match a with
  | Answered e _ =>
      match e with
      | quiche_h3_event_free ev => [ev]
      | _ => []
      end
  end.

(** The event a [quiche_h3_conn_poll] call hands to the bridge: a non-NULL
    event with a non-negative stream ID. *)
Definition handed_out (a : engine_answer) : list Z :=
  match a with
  | Answered e t =>
      match e in quicheE T return T -> list Z with
      | quiche_h3_conn_poll _ _ =>
          fun answer =>
            if (0 <=? fst answer) && negb (snd answer =? 0)
            then [snd answer] else []
      | _ => fun _ => []
      end t
  end.

(** What the slot holds that is still to be released. *)
Definition pending (slot : Z) : list Z := if slot =? 0 then [] else [slot].

(** A thread's use of the slot: a run of polls, each on some session and
    connection, threading the slot. *)
Fixpoint poll_all (env : JNIEnv) (polls : list (Z * Z)) (slot : Z) : Prog Z :=
  match polls with
  | [] => Ret slot
  | (h3, conn) :: rest =>
      '(_, slot') <- h3_jni.quiche_1h3_1conn_1poll env h3 conn slot ;;
      poll_all env rest slot'
  end.

(** The polls, then the free of a session. *)
Definition polls_then_free (env : JNIEnv) (polls : list (Z * Z)) (h3 : Z)
    (slot : Z) : Prog (unit * Z) :=
  slot' <- poll_all env polls slot ;;
  h3_jni.quiche_1h3_1conn_1free env h3 slot'.

(** ** dns_jni.c

    [Java_org_bluezoo_gumdrop_GumdropNative_getSystemNameservers], one
    definition per branch of its [#ifdef _WIN32]. *)

Module dns_jni.











End dns_jni.


(** The values of the engine's [uint8_t] outputs: the type and every byte
    of the connection IDs and of the token. *)
Definition header_info_bytes (out : header_info_out) : Prop :=
  0 <= hi_type out < 256 /\
  Forall (fun b => 0 <= b < 256) (hi_scid out) /\
  Forall (fun b => 0 <= b < 256) (hi_dcid out) /\
  Forall (fun b => 0 <= b < 256) (hi_token out).

(** ** The header collector's arrays *)

(** The collector is consistent: the entries stored so far fit the two
    arrays, which hold as many entries as [count] says and are allocated,
    and the capacity is an [int]. *)
Definition collector_ok (hc : h3_jni.header_collector) : Prop :=
  0 <= h3_jni.count hc <= h3_jni.capacity hc /\
  0 < h3_jni.capacity hc < 2 ^ 31 /\
  Z.of_nat (length (h3_jni.names hc)) = h3_jni.count hc /\
  Z.of_nat (length (h3_jni.values hc)) = h3_jni.count hc /\
  h3_jni.names_freed hc = false /\
  h3_jni.values_freed hc = false.

(** The collector [readHeaders] starts with. *)
Definition empty_collector : h3_jni.header_collector :=
  {| h3_jni.count := 0; h3_jni.capacity := 32;
     h3_jni.names := []; h3_jni.values := [];
     h3_jni.names_freed := false; h3_jni.values_freed := false |}.

(** When the callback finds the arrays full, exactly one of its two
    [realloc] calls gives a block. *)
Definition half_grown (env : JNIEnv) (hc : h3_jni.header_collector) : Prop :=
  h3_jni.capacity hc <= h3_jni.count hc /\
  malloc_ok env site_grow_names (h3_jni.count hc)
  <> malloc_ok env site_grow_values (h3_jni.count hc).

(** ** Buffers a body can be sent from *)

(** The body bytes cannot be reached: there are some to send, the buffer is
    not direct, and its backing array cannot be had or pinned. *)
Definition body_unavailable (buf : ByteBuffer) (len : Z) : Prop :=
  len <> 0 /\ GetDirectBufferAddress buf = 0 /\
  (array_elements buf = None \/ array_elements buf = Some 0).

(** * Properties *)

(** ** Integer conversions *)

Lemma to_signed_small (w z : Z) :
  0 < w -> - 2 ^ (w - 1) <= z < 2 ^ (w - 1) -> to_signed w z = z.
Proof.
  intros Hw Hz. unfold to_signed.
  assert (H2 : 2 ^ w = 2 * 2 ^ (w - 1)).
  { replace w with (Z.succ (w - 1)) at 1 by lia. apply Z.pow_succ_r. lia. }
  rewrite Z.mod_small; lia.
Qed.

Lemma jbyte_small (z : Z) : -128 <= z < 128 -> jbyte z = z.
Proof. intros H. apply to_signed_small; simpl; lia. Qed.

Lemma jint_small (z : Z) : -2147483648 <= z < 2147483648 -> jint z = z.
Proof. intros H. apply to_signed_small; simpl; lia. Qed.

Lemma jlong_small (z : Z) : - 2 ^ 63 <= z < 2 ^ 63 -> jlong z = z.
Proof. intros H. apply to_signed_small; simpl; lia. Qed.

(** The signed view of a byte keeps its eight bits. *)
Lemma uint8_t_jbyte (b : Z) : uint8_t (jbyte b) = uint8_t b.
Proof.
  unfold uint8_t, jbyte, to_unsigned, to_signed.
  change (2 ^ (8 - 1)) with 128. change (2 ^ 8) with 256.
  rewrite Zminus_mod_idemp_l. f_equal. lia.
Qed.

(** ** Address decoding *)

Lemma decode_address_accepts (env : JNIEnv) (addr_arr : jbyteArray) :
  fst (decode_address env addr_arr) <> 0 ->
  let family := uint8_t (byte_at env addr_arr 0) in
  let arr_len := Z.of_nat (length addr_arr) in
  (family = 4 /\ 7 <= arr_len) \/ (family = 6 /\ 19 <= arr_len).
Proof.
  unfold decode_address. intros H.
  destruct (GetByteArrayElements_ok env); simpl in H; [| congruence].
  destruct (uint8_t (byte_at env addr_arr 0) =? 4) eqn:E4;
    destruct (Z.of_nat (length addr_arr) >=? 7) eqn:L7; simpl in H;
    try (left; split; [apply Z.eqb_eq; exact E4 | apply Z.geb_le; exact L7]).
  all: destruct (uint8_t (byte_at env addr_arr 0) =? 6) eqn:E6;
    destruct (Z.of_nat (length addr_arr) >=? 19) eqn:L19; simpl in H;
    try congruence;
    right; split; [apply Z.eqb_eq; exact E6 | apply Z.geb_le; exact L19].
Qed.

(** C7: address decoding returns 0 (its error value) and produces no
    endpoint when the family byte is 4 and the input is shorter than 7
    bytes, when it is 6 and the input is shorter than 19 bytes, and when it
    is neither 4 nor 6. *)
Theorem decode_address_rejects (env : JNIEnv) (addr_arr : jbyteArray) :
  let family := uint8_t (byte_at env addr_arr 0) in
  let arr_len := Z.of_nat (length addr_arr) in
  (family = 4 /\ arr_len < 7) \/
  (family = 6 /\ arr_len < 19) \/
  (family <> 4 /\ family <> 6) ->
  fst (decode_address env addr_arr) = 0 /\
  no_endpoint (snd (decode_address env addr_arr)).
Proof.
  intros family arr_len H.
  destruct (Z.eq_dec (fst (decode_address env addr_arr)) 0) as [E | N].
  - split; [exact E |].
    revert E. unfold decode_address, no_endpoint.
    destruct (GetByteArrayElements_ok env); simpl; [| auto].
    destruct (_ && _); [discriminate |].
    destruct (_ && _); [discriminate | auto].
  - exfalso. apply decode_address_accepts in N. fold family arr_len in N. lia.
Qed.

Lemma decode_address_rejects_witness :
  fst (decode_address plain_env [4; 0; 80; 127; 0; 0]) = 0 /\
  no_endpoint (snd (decode_address plain_env [4; 0; 80; 127; 0; 0])).
Proof.
  apply (decode_address_rejects plain_env [4; 0; 80; 127; 0; 0]).
  left. split; [reflexivity | simpl; lia].
Defined.

Example decode_address_ipv4 :
  decode_address plain_env [4; 31; -112; 127; 0; 0; 1]
  = (16, ss_in 8080 [127; 0; 0; 1]).
Proof. reflexivity. Qed.

Example decode_address_empty :
  decode_address plain_env [] = (0, ss_zeroed).
Proof. reflexivity. Qed.

(** ** Buffers that are not addressable *)

Lemma Ret_returns_without_engine {R : Type} (r : R) :
  returns_without_engine (Ret r) r.
Proof. intros S eng s. split; reflexivity. Qed.

(** C9: when [GetDirectBufferAddress] gives NULL for the caller's buffer,
    receive, send, stream receive, stream send and body receive each return
    -1 without any engine call; the engine state is what it was, the slot is
    not involved, and stream receive stores nothing into [fin]. *)
Theorem unaddressable_buffer_returns_without_engine
    (env : JNIEnv) (h3 conn stream_id : Z) (buf : ByteBuffer) (len : Z)
    (from_addr to_addr : jbyteArray) (fin : bool) :
  GetDirectBufferAddress buf = 0 ->
  returns_without_engine
    (quiche_jni.quiche_1conn_1recv env conn buf len from_addr to_addr) (-1) /\
  returns_without_engine (quiche_jni.quiche_1conn_1send env conn buf len) (-1) /\
  returns_without_engine
    (quiche_jni.quiche_1conn_1stream_1recv env conn stream_id buf len)
    (-1, None) /\
  returns_without_engine
    (quiche_jni.quiche_1conn_1stream_1send env conn stream_id buf len fin)
    (-1) /\
  returns_without_engine
    (h3_jni.quiche_1h3_1recv_1body env h3 conn stream_id buf len) (-1).
Proof.
  intros Hnull.
  unfold quiche_jni.quiche_1conn_1recv, quiche_jni.quiche_1conn_1send,
    quiche_jni.quiche_1conn_1stream_1recv,
    quiche_jni.quiche_1conn_1stream_1send, h3_jni.quiche_1h3_1recv_1body.
  rewrite Hnull. simpl.
  repeat split; apply Ret_returns_without_engine.
Qed.

Lemma unaddressable_buffer_returns_without_engine_witness :
  returns_without_engine
    (quiche_jni.quiche_1conn_1recv plain_env 7 heap_buffer 1200
       [4; 0; 80; 10; 0; 0; 1] [4; 1; -69; 10; 0; 0; 2]) (-1) /\
  returns_without_engine
    (quiche_jni.quiche_1conn_1send plain_env 7 heap_buffer 1200) (-1) /\
  returns_without_engine
    (quiche_jni.quiche_1conn_1stream_1recv plain_env 7 4 heap_buffer 1200)
    (-1, None) /\
  returns_without_engine
    (quiche_jni.quiche_1conn_1stream_1send plain_env 7 4 heap_buffer 1200
       true) (-1) /\
  returns_without_engine
    (h3_jni.quiche_1h3_1recv_1body plain_env 9 7 4 heap_buffer 1200) (-1).
Proof.
  apply (unaddressable_buffer_returns_without_engine plain_env 9 7 4
           heap_buffer 1200 [4; 0; 80; 10; 0; 0; 1] [4; 1; -69; 10; 0; 0; 2]
           true).
  reflexivity.
Defined.

(** ** Zero-length sends with [fin] *)

(** C8, as stated, fails: a zero-length stream send with [fin] set, over a
    buffer that is not direct, returns -1 and the engine is never told that
    the stream ended. *)
Lemma stream_send_zero_fin_heap_buffer_rejected :
  run idle_engine
    (quiche_jni.quiche_1conn_1stream_1send plain_env 7 4 heap_buffer 0 true)
    tt = (-1, tt) /\
  calls idle_engine
    (quiche_jni.quiche_1conn_1stream_1send plain_env 7 4 heap_buffer 0 true)
    tt = [].
Proof. split; reflexivity. Qed.

(** C8, amended: a zero-length stream send with [fin] set over a direct
    buffer is handed to the engine as it is, with length 0 and [fin] true,
    and the engine's answer is returned; a zero-length body send with [fin]
    set is handed to the engine with a NULL pointer, length 0 and [fin]
    true, whatever its buffer is. *)
Theorem zero_length_fin_reaches_engine
    (env : JNIEnv) (h3 conn stream_id : Z) (buf body_buf : ByteBuffer) :
  GetDirectBufferAddress buf <> 0 ->
  quiche_jni.quiche_1conn_1stream_1send env conn stream_id buf 0 true
  = Vis (quiche_conn_stream_send conn (uint64_t stream_id)
           (GetDirectBufferAddress buf) 0 true)
        (fun sent => Ret (jint sent)) /\
  h3_jni.quiche_1h3_1send_1body env h3 conn stream_id body_buf 0 true
  = Vis (quiche_h3_send_body h3 conn (uint64_t stream_id) 0 0 true)
        (fun written => Ret (jint written)).
Proof.
  intros Hdirect. split.
  - unfold quiche_jni.quiche_1conn_1stream_1send.
    apply Z.eqb_neq in Hdirect. rewrite Hdirect. reflexivity.
  - reflexivity.
Qed.

Lemma zero_length_fin_reaches_engine_witness :
  quiche_jni.quiche_1conn_1stream_1send plain_env 7 4 direct_buffer 0 true
  = Vis (quiche_conn_stream_send 7 (uint64_t 4)
           (GetDirectBufferAddress direct_buffer) 0 true)
        (fun sent => Ret (jint sent)) /\
  h3_jni.quiche_1h3_1send_1body plain_env 9 7 4 heap_buffer 0 true
  = Vis (quiche_h3_send_body 9 7 (uint64_t 4) 0 0 true)
        (fun written => Ret (jint written)).
Proof.
  apply (zero_length_fin_reaches_engine plain_env 9 7 4 direct_buffer
           heap_buffer).
  discriminate.
Defined.

Example stream_send_zero_fin_direct_buffer :
  calls idle_engine
    (quiche_jni.quiche_1conn_1stream_1send plain_env 7 4 direct_buffer 0 true)
    tt = [Called (quiche_conn_stream_send 7 4 4096 0 true)].
Proof. reflexivity. Qed.

Example send_body_zero_fin_heap_buffer :
  calls idle_engine
    (h3_jni.quiche_1h3_1send_1body plain_env 9 7 4 heap_buffer 0 true) tt
  = [Called (quiche_h3_send_body 9 7 4 0 0 true)].
Proof. reflexivity. Qed.

(** ** Readable streams *)

Lemma collect_ids_spec (iter : quiche_stream_iter) :
  forall (count : Z) (ids : list Z),
    0 <= count <= 256 ->
    quiche_jni.collect_ids iter count ids
    = (ids ++ firstn (Z.to_nat (256 - count)) iter,
       skipn (Z.to_nat (257 - count)) iter).
Proof.
  induction iter as [| id rest IH]; intros count ids Hc;
    cbn [quiche_jni.collect_ids].
  - rewrite firstn_nil, skipn_nil, app_nil_r. reflexivity.
  - destruct (count <? 256) eqn:E.
    + apply Z.ltb_lt in E. rewrite IH by lia.
      replace (Z.to_nat (256 - count)) with (S (Z.to_nat (256 - (count + 1))))
        by lia.
      replace (Z.to_nat (257 - count)) with (S (Z.to_nat (257 - (count + 1))))
        by lia.
      cbn [firstn skipn]. rewrite <- app_assoc. reflexivity.
    + apply Z.ltb_ge in E.
      replace (256 - count) with 0 by lia.
      replace (257 - count) with 1 by lia.
      cbn. rewrite app_nil_r. reflexivity.
Qed.

(** C10, as stated, fails: when the JVM cannot allocate the result array,
    an unavailable iterator gives NULL and not an empty sequence, and with
    readable streams the NULL array is handed on to
    [GetLongArrayElements]. *)
Lemma readable_without_array_is_null :
  run idle_engine (quiche_jni.quiche_1conn_1readable no_array_env 7) tt
  = (Returned None, tt) /\
  run (readable_engine [0; 4])
    (quiche_jni.quiche_1conn_1readable no_array_env 7) tt
  = (Undefined, tt).
Proof. split; reflexivity. Qed.

(** C10, amended: the method asks the engine for the readable-stream
    iterator.  Without an iterator, or with one that yields nothing, it
    returns what [NewLongArray] gives: the empty array, or NULL when the
    array cannot be allocated.  Otherwise it frees the iterator, with
    everything past the first 256 stream IDs dropped, and, when the array is
    allocated and pinned, returns those first 256 IDs in the iterator's
    order, as [jlong]s; when it is not, the behaviour is undefined. *)
Theorem readable_is_first_256 (env : JNIEnv) (conn : Z) :
  exists k,
    quiche_jni.quiche_1conn_1readable env conn
    = Vis (quiche_conn_readable conn) k /\
    k None = Ret (Returned (if NewArray_ok env then Some [] else None)) /\
    forall ids : quiche_stream_iter,
      k (Some ids)
      = Vis (quiche_stream_iter_free (skipn 257 ids))
            (fun _ =>
               Ret (match firstn 256 ids with
                    | [] => Returned (if NewArray_ok env then Some [] else None)
                    | first =>
                        if NewArray_ok env && GetLongArrayElements_ok env
                        then Returned (Some (map jlong first))
                        else Undefined
                    end)).
Proof.
  eexists. split; [reflexivity |]. split.
  - cbn [bind]. unfold quiche_jni.NewLongArray.
    destruct (NewArray_ok env); reflexivity.
  - intros ids. cbn [bind call].
    rewrite (collect_ids_spec ids 0 []) by lia.
    change (Z.to_nat (256 - 0)) with 256%nat.
    change (Z.to_nat (257 - 0)) with 257%nat.
    cbn [app bind]. unfold quiche_jni.NewLongArray.
    destruct (firstn 256 ids) as [| id first].
    + destruct (NewArray_ok env); reflexivity.
    + replace (Z.of_nat (length (id :: first)) >? 0) with true
        by (symmetry; apply Z.gtb_lt; cbn [length]; lia).
      destruct (NewArray_ok env); [| reflexivity].
      destruct (GetLongArrayElements_ok env); reflexivity.
Qed.

Example readable_300_streams :
  run (readable_engine (map Z.of_nat (seq 0 300)))
    (quiche_jni.quiche_1conn_1readable plain_env 7) tt
  = (Returned (Some (map Z.of_nat (seq 0 256))), tt) /\
  calls (readable_engine (map Z.of_nat (seq 0 300)))
    (quiche_jni.quiche_1conn_1readable plain_env 7) tt
  = [ Called (quiche_conn_readable 7);
      Called (quiche_stream_iter_free (map Z.of_nat (seq 257 43))) ].
Proof. split; vm_compute; reflexivity. Qed.

Example readable_no_iterator :
  run idle_engine (quiche_jni.quiche_1conn_1readable plain_env 7) tt
  = (Returned (Some []), tt).
Proof. reflexivity. Qed.

(** Stream IDs below 2^63 come through the [jlong] cast as they are. *)
Lemma map_jlong_stream_ids (ids : list Z) :
  Forall (fun id => 0 <= id < 2 ^ 63) ids -> map jlong ids = ids.
Proof.
  induction 1 as [| id ids Hid _ IH]; simpl; [reflexivity |].
  rewrite IH, jlong_small by lia. reflexivity.
Qed.

(** ** Packet-header info *)

Lemma skipn_repeat {A : Type} (a : A) (n m : nat) :
  skipn n (repeat a m) = repeat a (m - n).
Proof.
  revert m. induction n as [| n IH]; intros [| m]; simpl; auto.
Qed.

(** One [SetByteArrayRegion] right after the part written so far. *)
Lemma SetByteArrayRegion_next (done src : list Z) (rest : nat) (off len : Z) :
  off = Z.of_nat (length done) ->
  len = Z.of_nat (length src) ->
  (length src <= rest)%nat ->
  quiche_jni.SetByteArrayRegion (done ++ repeat 0 rest) off len src
  = (done ++ src) ++ repeat 0 (rest - length src).
Proof.
  intros -> -> Hfit. unfold quiche_jni.SetByteArrayRegion.
  rewrite length_app, repeat_length.
  replace ((Z.of_nat (length done) <? 0) || (Z.of_nat (length src) <? 0)
           || (Z.of_nat (length done + rest)
               <? Z.of_nat (length done) + Z.of_nat (length src)))
    with false.
  2: { symmetry. rewrite !orb_false_iff. repeat split; apply Z.ltb_ge; lia. }
  rewrite !Nat2Z.id, <- Nat2Z.inj_add, Nat2Z.id.
  rewrite firstn_app, firstn_all, Nat.sub_diag, firstn_O, app_nil_r.
  rewrite firstn_all.
  rewrite skipn_app, skipn_all2 by lia.
  replace (length done + length src - length done)%nat with (length src)
    by lia.
  rewrite skipn_repeat, <- app_assoc. reflexivity.
Qed.

Lemma version_bytes (v : Z) :
  [ jbyte (Z.land (Z.shiftr v 24) 255); jbyte (Z.land (Z.shiftr v 16) 255);
    jbyte (Z.land (Z.shiftr v 8) 255); jbyte (Z.land v 255) ]
  = map jbyte (be32 v).
Proof.
  unfold be32. change 255 with (Z.ones 8).
  rewrite !Z.land_ones, !Z.shiftr_div_pow2 by lia. reflexivity.
Qed.

(** Read back as unsigned bytes, most significant first, the four version
    bytes give the version. *)
Lemma be32_value (v : Z) :
  0 <= v < 2 ^ 32 ->
  match map uint8_t (map jbyte (be32 v)) with
  | [b0; b1; b2; b3] => b0 * 2 ^ 24 + b1 * 2 ^ 16 + b2 * 2 ^ 8 + b3 = v
  | _ => False
  end.
Proof.
  intros Hv. unfold be32. cbn [map]. rewrite !uint8_t_jbyte.
  unfold uint8_t, to_unsigned. rewrite !Zmod_mod.
  change (2 ^ 8) with 256. change (2 ^ 16) with 65536.
  change (2 ^ 24) with 16777216. change (2 ^ 32) with 4294967296 in Hv.
  Z.div_mod_to_equations. lia.
Qed.

Local Ltac next_region :=
  erewrite SetByteArrayRegion_next;
  [ | repeat rewrite ?length_app, ?length_map; try unfold be32;
      cbn [length]; lia .. ].

Lemma header_info_result_layout (out : header_info_out) :
  header_info_fits out ->
  quiche_jni.header_info_result out = header_info_layout out.
Proof.
  intros (_ & Hs & Hd & Ht).
  unfold quiche_jni.QUICHE_MAX_CONN_ID_LEN, quiche_jni.sizeof_token in *.
  unfold quiche_jni.header_info_result, header_info_layout.
  cbv zeta.
  rewrite !jint_small by lia.
  rewrite !(jbyte_small (Z.of_nat _)) by lia.
  rewrite version_bytes.
  unfold quiche_jni.NewByteArray.
  set (d := hi_dcid out) in *. set (c := hi_scid out) in *.
  set (t := hi_token out) in *.
  match goal with
  | |- context [repeat 0 ?n] => change (repeat 0 n) with ([] ++ repeat 0 n)
  end.
  do 8 next_region.
  match goal with
  | |- context [repeat 0 ?n] => replace n with 0%nat
  end.
  2: { repeat rewrite ?length_app, ?length_map. unfold be32.
       cbn [length]. lia. }
  cbn [repeat]. rewrite app_nil_r. cbn [app].
  repeat rewrite <- app_assoc. reflexivity.
Qed.

Lemma header_info_layout_length (out : header_info_out) :
  Z.of_nat (length (header_info_layout out))
  = 4 + 1 + 1 + Z.of_nat (length (hi_dcid out))
    + 1 + Z.of_nat (length (hi_scid out))
    + 1 + Z.of_nat (length (hi_token out)).
Proof.
  unfold header_info_layout, be32.
  repeat rewrite ?length_app, ?length_map. cbn [length]. lia.
Qed.

(** C5: when the engine parses the packet header (a non-negative return
    code, its outputs within the buffers it was given, the token buffer
    being 64 bytes), the method returns the array
    [version, 4 bytes big-endian][type][dcid_len][dcid][scid_len][scid]
    [token_len][token]; its length is the sum of the field lengths, 24 bytes
    for two 8-byte connection IDs and no token. *)
Theorem header_info_is_laid_out
    (env : JNIEnv) (buf : ByteBuffer) (len : Z)
    (S : Type) (eng : engine S) (s s' : S) (rc : Z) (out : header_info_out) :
  GetDirectBufferAddress buf <> 0 ->
  NewArray_ok env = true ->
  eng _ (quiche_header_info (GetDirectBufferAddress buf) (size_t len)
           20 20 20 64) s = ((rc, out), s') ->
  0 <= rc ->
  header_info_fits out ->
  run eng (quiche_jni.quiche_1header_1info env buf len) s
  = (Some (header_info_layout out), s') /\
  Z.of_nat (length (header_info_layout out))
  = 4 + 1 + 1 + Z.of_nat (length (hi_dcid out))
    + 1 + Z.of_nat (length (hi_scid out))
    + 1 + Z.of_nat (length (hi_token out)) /\
  (length (hi_dcid out) = 8%nat -> length (hi_scid out) = 8%nat ->
   length (hi_token out) = 0%nat ->
   length (header_info_layout out) = 24%nat).
Proof.
  intros Hdirect Hnew Heng Hrc Hfits.
  split; [| split].
  - unfold quiche_jni.quiche_1header_1info.
    apply Z.eqb_neq in Hdirect. rewrite Hdirect.
    cbn [bind call run].
    unfold quiche_jni.QUICHE_MAX_CONN_ID_LEN, quiche_jni.sizeof_token.
    rewrite Heng. cbn [bind run].
    replace (rc <? 0) with false by (symmetry; apply Z.ltb_ge; exact Hrc).
    rewrite Hnew. cbn [negb run].
    rewrite header_info_result_layout by exact Hfits. reflexivity.
  - apply header_info_layout_length.
  - intros Hd Hs Ht. pose proof (header_info_layout_length out) as L.
    rewrite Hd, Hs, Ht in L. lia.
Qed.

Lemma header_info_is_laid_out_witness :
  run (header_engine crafted_header)
    (quiche_jni.quiche_1header_1info plain_env direct_buffer 1200) tt
  = (Some (header_info_layout crafted_header), tt) /\
  Z.of_nat (length (header_info_layout crafted_header))
  = 4 + 1 + 1 + Z.of_nat (length (hi_dcid crafted_header))
    + 1 + Z.of_nat (length (hi_scid crafted_header))
    + 1 + Z.of_nat (length (hi_token crafted_header)) /\
  (length (hi_dcid crafted_header) = 8%nat ->
   length (hi_scid crafted_header) = 8%nat ->
   length (hi_token crafted_header) = 0%nat ->
   length (header_info_layout crafted_header) = 24%nat).
Proof.
  apply (header_info_is_laid_out plain_env direct_buffer 1200 unit
           (header_engine crafted_header) tt tt 0 crafted_header).
  - discriminate.
  - reflexivity.
  - reflexivity.
  - lia.
  - unfold header_info_fits, quiche_jni.QUICHE_MAX_CONN_ID_LEN,
      quiche_jni.sizeof_token, crafted_header.
    cbn [hi_version hi_scid hi_dcid hi_token length]. lia.
Defined.

Example crafted_header_info :
  run (header_engine crafted_header)
    (quiche_jni.quiche_1header_1info plain_env direct_buffer 1200) tt
  = (Some [ 0; 0; 0; 1;  1;
            8; 1; 2; 3; 4; 5; 6; 7; -56;
            8; 17; 18; 19; 20; 21; 22; 23; 24;
            0 ], tt).
Proof. reflexivity. Qed.

(** ** Handles *)




(** ** Modified UTF-8 *)

(** Turns the comparisons of a boolean test into facts and decides it. *)
Ltac decide_test :=
  repeat match goal with
         | |- context [?a <=? ?b] => destruct (Z.leb_spec a b)
         | |- context [?a <? ?b] => destruct (Z.ltb_spec a b)
         | |- context [?a =? ?b] => destruct (Z.eqb_spec a b)
         end;
  cbn [andb orb negb];
  first [ reflexivity | exfalso; Z.div_mod_to_equations; lia ].

Ltac test_is b v := replace b with v by (symmetry; decide_test).

Lemma leb_pair_false (lo hi c : Z) :
  (lo <=? c) && (c <=? hi) = false -> c < lo \/ hi < c.
Proof.
  intros H. apply andb_false_iff in H. rewrite !Z.leb_gt in H. exact H.
Qed.

Lemma mutf8_decode_char (c : Z) (rest : list Z) :
  0 <= c < 65536 ->
  mutf8_decode (mutf8_char c ++ rest) = option_map (cons c) (mutf8_decode rest).
Proof.
  intros Hc. unfold mutf8_char.
  destruct ((1 <=? c) && (c <=? 127)) eqn:E1.
  - cbn [app mutf8_decode]. rewrite E1. reflexivity.
  - apply leb_pair_false in E1.
    destruct (Z.leb_spec c 2047) as [E2 | E2]; cbn [app mutf8_decode].
    + test_is ((1 <=? 192 + c / 64) && (192 + c / 64 <=? 127)) false.
      test_is ((192 <=? 192 + c / 64) && (192 + c / 64 <=? 223)) true.
      replace ((192 + c / 64 - 192) * 64 + (128 + c mod 64 - 128)) with c
        by (Z.div_mod_to_equations; lia).
      test_is ((128 <=? 128 + c mod 64) && (128 + c mod 64 <=? 191)
               && ((c =? 0) || (128 <=? c))) true.
      reflexivity.
    + test_is ((1 <=? 224 + c / 4096) && (224 + c / 4096 <=? 127)) false.
      test_is ((192 <=? 224 + c / 4096) && (224 + c / 4096 <=? 223)) false.
      test_is ((224 <=? 224 + c / 4096) && (224 + c / 4096 <=? 239)) true.
      replace ((224 + c / 4096 - 224) * 4096 + (128 + c / 64 mod 64 - 128) * 64
               + (128 + c mod 64 - 128)) with c
        by (Z.div_mod_to_equations; lia).
      test_is ((128 <=? 128 + c / 64 mod 64) && (128 + c / 64 mod 64 <=? 191)
               && (128 <=? 128 + c mod 64) && (128 + c mod 64 <=? 191)
               && (2048 <=? c)) true.
      reflexivity.
Qed.

(** Decoding undoes encoding. *)
Lemma mutf8_decode_encode (s : jstring) :
  jstring_wf s -> mutf8_decode (mutf8_encode s) = Some s.
Proof.
  induction 1 as [| c s Hc _ IH]; [reflexivity |].
  unfold mutf8_encode in *. cbn [flat_map].
  rewrite mutf8_decode_char by exact Hc. rewrite IH. reflexivity.
Qed.

Lemma mutf8_char_no_zero (c : Z) :
  0 <= c < 65536 -> Forall (fun b => b <> 0) (mutf8_char c).
Proof.
  intros Hc. unfold mutf8_char.
  destruct ((1 <=? c) && (c <=? 127)) eqn:E1.
  - apply andb_true_iff in E1. rewrite !Z.leb_le in E1.
    repeat constructor. lia.
  - destruct (c <=? 2047); repeat constructor;
      Z.div_mod_to_equations; lia.
Qed.

Lemma mutf8_encode_no_zero (s : jstring) :
  jstring_wf s -> Forall (fun b => b <> 0) (mutf8_encode s).
Proof.
  induction 1 as [| c s Hc _ IH]; [constructor |].
  unfold mutf8_encode in *. cbn [flat_map]. apply Forall_app. split.
  - apply mutf8_char_no_zero. exact Hc.
  - exact IH.
Qed.




(** ** C strings and Java strings *)

Lemma c_str_app_nul (l : list Z) : c_str (l ++ [0]) = c_str l.
Proof.
  induction l as [| b l IH]; simpl; [reflexivity |].
  destruct (b =? 0); [reflexivity | rewrite IH; reflexivity].
Qed.

Lemma c_str_no_zero (l : list Z) : Forall (fun b => b <> 0) l -> c_str l = l.
Proof.
  induction 1 as [| b l Hb _ IH]; simpl; [reflexivity |].
  apply Z.eqb_neq in Hb. rewrite Hb, IH. reflexivity.
Qed.

Lemma firstn_length_Z {A : Type} (l : list A) :
  firstn (Z.to_nat (Z.of_nat (length l))) l = l.
Proof. rewrite Nat2Z.id. apply firstn_all. Qed.

Lemma NewStringUTF_app_nul (env : JNIEnv) (l : list Z) :
  NewStringUTF env (l ++ [0]) = NewStringUTF env l.
Proof. unfold NewStringUTF, utf_string. rewrite c_str_app_nul. reflexivity. Qed.


(** A string given to [GetStringUTFChars] and back to [NewStringUTF]. *)
Lemma NewStringUTF_GetStringUTFChars (env : JNIEnv) (s : jstring) :
  strings_allocated env -> jstring_wf s ->
  NewStringUTF env (GetStringUTFChars s) = Some s.
Proof.
  intros Hnew Hwf. unfold GetStringUTFChars.
  rewrite NewStringUTF_app_nul. unfold NewStringUTF, utf_string.
  rewrite Hnew. cbn [negb].
  rewrite c_str_no_zero by (apply mutf8_encode_no_zero; exact Hwf).
  rewrite mutf8_decode_encode by exact Hwf. reflexivity.
Qed.

(** ** Collecting headers *)






(** ** The event slot *)

Section EventSlot.

Context (env : JNIEnv) {S : Type} (eng : engine S).

Lemma poll_calls (h3 conn slot : Z) (s : S) :
  exists rest,
    calls eng (h3_jni.quiche_1h3_1conn_1poll env h3 conn slot) s
    = (if slot =? 0 then [] else [Called (quiche_h3_event_free slot)])
      ++ Called (quiche_h3_conn_poll h3 conn) :: rest.
Proof.
  unfold h3_jni.quiche_1h3_1conn_1poll.
  destruct (slot =? 0); cbn [negb bind call calls app].
  - destruct (eng _ (quiche_h3_conn_poll h3 conn) s). eexists. reflexivity.
  - destruct (eng unit (quiche_h3_event_free slot) s).
    destruct (eng _ (quiche_h3_conn_poll h3 conn) _). eexists. reflexivity.
Qed.

(** The poll once the slot is released. *)
Lemma poll_after_release (h3 conn slot : Z) (s : S) :
  run eng (h3_jni.quiche_1h3_1conn_1poll env h3 conn slot) s
  = run eng (h3_jni.quiche_1h3_1conn_1poll env h3 conn 0)
      (after_release eng slot s).
Proof.
  unfold h3_jni.quiche_1h3_1conn_1poll, after_release.
  destruct (slot =? 0); cbn [negb bind call run Z.eqb]; [reflexivity |].
  destruct (eng unit (quiche_h3_event_free slot) s) as [[] s0]. reflexivity.
Qed.


Lemma free_calls (h3 slot : Z) (s : S) :
  calls eng (h3_jni.quiche_1h3_1conn_1free env h3 slot) s
  = Called (quiche_h3_conn_free h3)
    :: (if slot =? 0 then [] else [Called (quiche_h3_event_free slot)]) /\
  snd (fst (run eng (h3_jni.quiche_1h3_1conn_1free env h3 slot) s)) = 0.
Proof.
  unfold h3_jni.quiche_1h3_1conn_1free. cbn [bind call calls run].
  destruct (eng unit (quiche_h3_conn_free h3) s) as [[] s0].
  destruct (slot =? 0) eqn:E; cbn [negb bind call calls run].
  - apply Z.eqb_eq in E. subst slot. split; reflexivity.
  - destruct (eng unit (quiche_h3_event_free slot) s0) as [[] s1].
    split; reflexivity.
Qed.

(** C3, amended: there is one slot per thread, shared by all sessions, and
    it holds at most one event.  With an event cached, a poll on any session
    releases it before the engine is polled, and freeing any session frees
    the session and then releases it, leaving the slot empty. *)
Theorem event_slot_is_per_thread (h3 conn slot : Z) (s : S) :
  slot <> 0 ->
  (exists rest,
     calls eng (h3_jni.quiche_1h3_1conn_1poll env h3 conn slot) s
     = Called (quiche_h3_event_free slot)
       :: Called (quiche_h3_conn_poll h3 conn) :: rest) /\
  calls eng (h3_jni.quiche_1h3_1conn_1free env h3 slot) s
  = [Called (quiche_h3_conn_free h3); Called (quiche_h3_event_free slot)] /\
  snd (fst (run eng (h3_jni.quiche_1h3_1conn_1free env h3 slot) s)) = 0.
Proof.
  intros Hslot. apply Z.eqb_neq in Hslot.
  pose proof (poll_calls h3 conn slot s) as Hp.
  pose proof (free_calls h3 slot s) as Hf.
  rewrite Hslot in Hp, Hf. exact (conj Hp Hf).
Qed.



End EventSlot.

(** C3, as stated, fails.  Session 1 is polled and its Headers event
    cached; polling session 2, which has nothing to report, releases that
    event and empties the slot, and the headers of session 1 can no longer
    be read.  Freeing session 2 while the event of session 1 is cached frees
    the session first and then releases that event. *)
Lemma other_session_releases_cached_event :
  run (scripted_engine sample_headers)
    (poll_poll_headers plain_env 1 2 7) [(1, 0, 100)]
  = (Returned None, []) /\
  calls (scripted_engine sample_headers)
    (poll_poll_headers plain_env 1 2 7) [(1, 0, 100)]
  = [ Called (quiche_h3_conn_poll 1 7); Called (quiche_h3_event_type 100);
      Called (quiche_h3_event_free 100); Called (quiche_h3_conn_poll 2 7) ] /\
  calls (scripted_engine sample_headers)
    (h3_jni.quiche_1h3_1conn_1free plain_env 2 100) []
  = [ Called (quiche_h3_conn_free 2); Called (quiche_h3_event_free 100) ].
Proof. repeat split; reflexivity. Qed.

Lemma event_slot_is_per_thread_witness :
  (exists rest,
     calls (scripted_engine sample_headers)
       (h3_jni.quiche_1h3_1conn_1poll plain_env 2 7 100) []
     = Called (quiche_h3_event_free 100)
       :: Called (quiche_h3_conn_poll 2 7) :: rest) /\
  calls (scripted_engine sample_headers)
    (h3_jni.quiche_1h3_1conn_1free plain_env 2 100) []
  = [Called (quiche_h3_conn_free 2); Called (quiche_h3_event_free 100)] /\
  snd (fst (run (scripted_engine sample_headers)
              (h3_jni.quiche_1h3_1conn_1free plain_env 2 100) [])) = 0.
Proof.
  apply (event_slot_is_per_thread plain_env (scripted_engine sample_headers)
           2 7 100 []).
  discriminate.
Defined.

Example one_session_reads_its_headers :
  run (scripted_engine sample_headers)
    ('(_, slot) <- h3_jni.quiche_1h3_1conn_1poll plain_env 1 7 0 ;;
     h3_jni.quiche_1h3_1event_1headers plain_env 1 slot) [(1, 0, 100)]
  = (Returned (Some [Some [58; 115]; Some [50; 48; 48]]), []).
Proof. reflexivity. Qed.



Example two_polls_then_headers :
  run (scripted_engine sample_headers) (poll_poll_headers plain_env 9 9 7)
    [(9, 0, 100); (9, 4, 200)]
  = (Returned (Some [ Some [58; 115]; Some [52; 48; 52];
                      Some [120]; Some [121] ]), []) /\
  calls (scripted_engine sample_headers) (poll_poll_headers plain_env 9 9 7)
    [(9, 0, 100); (9, 4, 200)]
  = [ Called (quiche_h3_conn_poll 9 7); Called (quiche_h3_event_type 100);
      Called (quiche_h3_event_free 100);
      Called (quiche_h3_conn_poll 9 7); Called (quiche_h3_event_type 200);
      Called (quiche_h3_event_for_each_header 200) ].
Proof. split; reflexivity. Qed.

Example poll_none_then_headers :
  run (scripted_engine sample_headers) (poll_poll_headers plain_env 9 9 7)
    [(9, 0, 100)] = (Returned None, []).
Proof. reflexivity. Qed.

(** ** Header lists *)













Example send_response_two_pairs :
  calls idle_engine
    (h3_jni.quiche_1h3_1send_1response plain_env 9 7 4
       [[97]; [49]; [97]; [50]] false) tt
  = [ Called (quiche_h3_send_response 9 7 4
                [ {| name := [97; 0]; name_len := 1;
                     value := [49; 0]; value_len := 1 |};
                  {| name := [97; 0]; name_len := 1;
                     value := [50; 0]; value_len := 1 |} ] 2 false) ].
Proof. reflexivity. Qed.

(** A string with U+0000, U+00E9 and the surrogates of U+1F600 is sent in
    modified UTF-8: two bytes for U+0000, and six where UTF-8 has four. *)
Example send_request_in_modified_utf8 :
  calls idle_engine
    (h3_jni.quiche_1h3_1send_1request plain_env 9 7
       [[120]; [0; 233; 55357; 56832]] true) tt
  = [ Called (quiche_h3_send_request 9 7
                [ {| name := [120; 0]; name_len := 1;
                     value := [192; 128; 195; 169;
                               237; 160; 189; 237; 184; 128; 0];
                     value_len := 10 |} ] 1 true) ].
Proof. reflexivity. Qed.

(** A header value in UTF-8 with a four-byte sequence is not modified
    UTF-8: what is read is left to the JVM, here U+FFFD. *)
Example four_byte_utf8_is_not_kept :
  run (scripted_engine (fun _ => [([120], [240; 159; 152; 128])]))
    (h3_jni.quiche_1h3_1event_1headers plain_env 9 100) []
  = (Returned (Some [Some [120]; Some [65533]]), []).
Proof. reflexivity. Qed.

(** Fifty pairs with the same name, sent and read back. *)
Example fifty_pairs_round_trip :
  fst (run
         (scripted_engine
            (fun _ =>
               map header_bytes
                 (h3_jni.fill_h3_headers
                    (flat_map (fun i => [[120]; [Z.of_nat i + 200]])
                       (seq 0 50))
                    50)))
         (h3_jni.quiche_1h3_1event_1headers plain_env 9 100) [])
  = Returned
      (Some (map Some
               (flat_map (fun i => [[120]; [Z.of_nat i + 200]]) (seq 0 50)))).
Proof. vm_compute. reflexivity. Qed.

(** ** ALPN selection *)

Lemma bytes_eqb_eq (p q : list Z) : bytes_eqb p q = true <-> p = q.
Proof.
  revert q. induction p as [| a p IH]; intros [| b q]; simpl;
    try (split; [discriminate | congruence]); [tauto |].
  rewrite andb_true_iff, Z.eqb_eq, IH.
  split; [intros [-> ->]; reflexivity | intros E; inversion E; auto].
Qed.

Lemma existsb_bytes_eqb (p : list Z) (m : list (list Z)) :
  existsb (bytes_eqb p) m = true <-> In p m.
Proof.
  rewrite existsb_exists. split.
  - intros (q & Hin & E). apply bytes_eqb_eq in E. subst. exact Hin.
  - intros Hin. exists p. split; [exact Hin | apply bytes_eqb_eq; reflexivity].
Qed.

(** [find] with the membership test computes the first common element. *)
Lemma find_first_common (l m : list (list Z)) :
  match find (fun p => existsb (bytes_eqb p) m) l with
  | Some p => first_common p l m
  | None => forall p, In p l -> ~ In p m
  end.
Proof.
  induction l as [| a l IH]; simpl.
  - intros p [].
  - destruct (existsb (bytes_eqb a) m) eqn:E.
    + exists [], l. repeat split.
      * apply existsb_bytes_eqb. exact E.
      * intros q [].
    + assert (Ha : ~ In a m).
      { intros Hin. apply existsb_bytes_eqb in Hin. congruence. }
      destruct (find _ l) as [p |].
      * destruct IH as (pre & post & -> & Hin & Hpre).
        exists (a :: pre), post. repeat split; [exact Hin |].
        intros q [<- | Hq]; [exact Ha | apply Hpre; exact Hq].
      * intros p [<- | Hp]; [exact Ha | apply IH; exact Hp].
Qed.

(** The bridge gives the stored table as the list whose order decides. *)
Lemma alpn_select_cb_find (env : JNIEnv) (ctx0 : ssl_ctx_jni.SSL_CTX)
    (table : jbyteArray) (in_ : list Z) (local peer : list (list Z)) :
  Z.of_nat (length table) < 2 ^ 31 ->
  alpn_list (map uint8_t table) = Some local ->
  ssl_is_valid_alpn_list in_ = Some peer ->
  ssl_ctx_jni.alpn_select_cb
    (snd (ssl_ctx_jni.ssl_1ctx_1set_1alpn_1protos env ctx0 table)) in_
  = match find (fun p => existsb (bytes_eqb p) peer) local with
    | Some p => (SSL_TLSEXT_ERR_OK, Some p)
    | None => (SSL_TLSEXT_ERR_NOACK, hd_error peer)
    end.
Proof.
  intros Hlen Hlocal Hpeer.
  unfold ssl_ctx_jni.ssl_1ctx_1set_1alpn_1protos, ssl_ctx_jni.alpn_select_cb.
  cbn [snd ssl_ctx_jni.ex_data ssl_ctx_jni.len ssl_ctx_jni.data].
  assert (Hu : to_unsigned 32 (Z.of_nat (length table))
               = Z.of_nat (length table)).
  { unfold to_unsigned. apply Z.mod_small.
    change (2 ^ 31) with 2147483648 in Hlen.
    change (2 ^ 32) with 4294967296. lia. }
  rewrite Hu, Nat2Z.id.
  rewrite <- (length_map uint8_t table) at 1 2.
  rewrite !firstn_all.
  unfold SSL_select_next_proto. rewrite Hpeer.
  destruct (map uint8_t table) as [| b rest] eqn:Ewire.
  - rewrite alpn_list_equation_1 in Hlocal. inversion Hlocal; subst local.
    reflexivity.
  - unfold ssl_is_valid_alpn_list. rewrite Hlocal.
    destruct (find _ local); reflexivity.
Qed.

(** C1, as stated, fails.  With the table [h3, h2] and a peer that
    advertises [h2, h3], the first protocol of the peer's list that is in
    the table is h2, yet the callback selects h3. *)
Lemma alpn_selection_follows_table_order :
  ssl_ctx_jni.alpn_select_cb
    (snd (ssl_ctx_jni.ssl_1ctx_1set_1alpn_1protos plain_env fresh_ctx
            (alpn_wire [proto_h3; proto_h2])))
    (alpn_wire [proto_h2; proto_h3])
  = (SSL_TLSEXT_ERR_OK, Some proto_h3) /\
  first_common proto_h2 [proto_h2; proto_h3] [proto_h3; proto_h2] /\
  proto_h3 <> proto_h2.
Proof.
  split; [reflexivity | split; [| discriminate]].
  exists [], [proto_h3]. repeat split.
  - right. left. reflexivity.
  - intros q [].
Qed.

(** C1, amended: on a context whose table was set by setAlpnProtocols, the
    callback selects the first protocol of the locally configured table, in
    the table's order, that also appears in the peer's advertised list; if
    no protocol of the table appears there, it returns
    [SSL_TLSEXT_ERR_NOACK], the code for no protocol acknowledged, and not a
    fatal alert. *)
Theorem alpn_selects_first_table_protocol
    (env : JNIEnv) (ctx0 : ssl_ctx_jni.SSL_CTX) (table : jbyteArray)
    (in_ : list Z) (local peer : list (list Z)) :
  Z.of_nat (length table) < 2 ^ 31 ->
  alpn_list (map uint8_t table) = Some local ->
  ssl_is_valid_alpn_list in_ = Some peer ->
  let ctx := snd (ssl_ctx_jni.ssl_1ctx_1set_1alpn_1protos env ctx0 table) in
  (exists p,
     first_common p local peer /\
     ssl_ctx_jni.alpn_select_cb ctx in_ = (SSL_TLSEXT_ERR_OK, Some p)) \/
  ((forall p, In p local -> ~ In p peer) /\
   fst (ssl_ctx_jni.alpn_select_cb ctx in_) = SSL_TLSEXT_ERR_NOACK).
Proof.
  intros Hlen Hlocal Hpeer ctx. unfold ctx.
  rewrite (alpn_select_cb_find env ctx0 table in_ local peer) by assumption.
  pose proof (find_first_common local peer) as Hfind.
  destruct (find _ local) as [p |].
  - left. exists p. split; [exact Hfind | reflexivity].
  - right. split; [exact Hfind | reflexivity].
Qed.

Lemma alpn_selects_first_table_protocol_witness :
  (exists p,
     first_common p [proto_h3; proto_h2] [proto_h2] /\
     ssl_ctx_jni.alpn_select_cb
       (snd (ssl_ctx_jni.ssl_1ctx_1set_1alpn_1protos plain_env fresh_ctx
               (alpn_wire [proto_h3; proto_h2])))
       (alpn_wire [proto_h2])
     = (SSL_TLSEXT_ERR_OK, Some p)) \/
  ((forall p, In p [proto_h3; proto_h2] -> ~ In p [proto_h2]) /\
   fst (ssl_ctx_jni.alpn_select_cb
          (snd (ssl_ctx_jni.ssl_1ctx_1set_1alpn_1protos plain_env fresh_ctx
                  (alpn_wire [proto_h3; proto_h2])))
          (alpn_wire [proto_h2]))
   = SSL_TLSEXT_ERR_NOACK).
Proof.
  apply (alpn_selects_first_table_protocol plain_env fresh_ctx
           (alpn_wire [proto_h3; proto_h2]) (alpn_wire [proto_h2]) [proto_h3; proto_h2] [proto_h2]).
  - simpl. lia.
  - reflexivity.
  - reflexivity.
Defined.

Example alpn_h2_only :
  ssl_ctx_jni.alpn_select_cb
    (snd (ssl_ctx_jni.ssl_1ctx_1set_1alpn_1protos plain_env fresh_ctx
            (alpn_wire [proto_h3; proto_h2])))
    (alpn_wire [proto_h2])
  = (SSL_TLSEXT_ERR_OK, Some proto_h2).
Proof. reflexivity. Qed.

Example alpn_no_overlap :
  fst (ssl_ctx_jni.alpn_select_cb
         (snd (ssl_ctx_jni.ssl_1ctx_1set_1alpn_1protos plain_env fresh_ctx
                 (alpn_wire [proto_h3; proto_h2])))
         (alpn_wire [proto_spdy]))
  = SSL_TLSEXT_ERR_NOACK.
Proof. reflexivity. Qed.

Example alpn_table_never_set :
  ssl_ctx_jni.alpn_select_cb fresh_ctx (alpn_wire [proto_h2])
  = (SSL_TLSEXT_ERR_NOACK, None).
Proof. reflexivity. Qed.

(** * Further properties *)

(** ** Decoded addresses *)

Lemma uint8_t_range (b : Z) : 0 <= uint8_t b < 256.
Proof. unfold uint8_t, to_unsigned. apply Z.mod_pos_bound. reflexivity. Qed.

(** Two bytes joined by shift and or: the high byte times 256 plus the low
    byte. *)
Lemma lor_shiftl_8 (a b : Z) :
  0 <= a < 256 -> 0 <= b < 256 -> Z.lor (Z.shiftl a 8) b = a * 256 + b.
Proof.
  intros Ha Hb.
  assert (Hdisjoint : Z.land (Z.shiftl a 8) b = 0).
  { apply Z.bits_inj'. intros n Hn.
    rewrite Z.land_spec, Z.bits_0.
    destruct (Z.ltb_spec n 8) as [Hlow | Hhigh].
    - rewrite Z.shiftl_spec_low by lia. reflexivity.
    - destruct (Z.eq_dec b 0) as [-> | Hnz].
      + rewrite Z.bits_0. apply andb_false_r.
      + rewrite (Z.bits_above_log2 b n), andb_false_r; [reflexivity | lia |].
        apply Z.log2_lt_pow2; [lia |].
        apply Z.lt_le_trans with (2 ^ 8); [simpl; lia |].
        apply Z.pow_le_mono_r; lia. }
  rewrite <- Z.lxor_lor by exact Hdisjoint.
  rewrite <- Z.add_nocarry_lxor by exact Hdisjoint.
  rewrite Z.shiftl_mul_pow2 by lia. reflexivity.
Qed.

Lemma port_of_bytes (hi lo : Z) :
  uint16_t (Z.lor (Z.shiftl (uint8_t hi) 8) (uint8_t lo))
  = uint8_t hi * 256 + uint8_t lo.
Proof.
  pose proof (uint8_t_range hi). pose proof (uint8_t_range lo).
  rewrite lor_shiftl_8 by assumption.
  unfold uint16_t, to_unsigned. apply Z.mod_small.
  change (2 ^ 16) with 65536. lia.
Qed.

Lemma byte_at_head (env : JNIEnv) (a b c : Z) (l : list Z) :
  byte_at env (a :: b :: c :: l) 0 = a /\
  byte_at env (a :: b :: c :: l) 1 = b /\
  byte_at env (a :: b :: c :: l) 2 = c.
Proof. repeat split; reflexivity. Qed.

(** X1: with the array pinned, an array that starts with family byte 4, two
    port bytes and four address bytes decodes to the IPv4 endpoint with that
    address and the port read big-endian, with length 16; one that starts
    with 6, two port bytes and sixteen address bytes decodes to the IPv6
    endpoint, with length 28.  Bytes after the address are ignored. *)
Theorem decode_address_decodes
    (env : JNIEnv) (hi lo : Z) (addr4 addr16 rest : list Z) :
  GetByteArrayElements_ok env = true ->
  length addr4 = 4%nat ->
  length addr16 = 16%nat ->
  decode_address env ([4; hi; lo] ++ addr4 ++ rest)
  = (16, ss_in (uint8_t hi * 256 + uint8_t lo) addr4) /\
  decode_address env ([6; hi; lo] ++ addr16 ++ rest)
  = (28, ss_in6 (uint8_t hi * 256 + uint8_t lo) addr16).
Proof.
  intros Hpin Hlen4 Hlen16. unfold decode_address. rewrite Hpin.
  cbn [negb app].
  rewrite !(proj1 (byte_at_head env _ _ _ _)),
    !(proj1 (proj2 (byte_at_head env _ _ _ _))),
    !(proj2 (proj2 (byte_at_head env _ _ _ _))), !port_of_bytes.
  change (uint8_t 4) with 4. change (uint8_t 6) with 6.
  cbn [Z.eqb Pos.eqb andb].
  unfold sub_bytes. cbn [skipn length].
  rewrite !length_app.
  split.
  - replace (Z.of_nat (S (S (S (length addr4 + length rest)))) >=? 7)
      with true by (symmetry; apply Z.geb_le; lia).
    rewrite <- Hlen4, firstn_app, firstn_all, Nat.sub_diag, firstn_O,
      app_nil_r. reflexivity.
  - replace (Z.of_nat (S (S (S (length addr16 + length rest)))) >=? 19)
      with true by (symmetry; apply Z.geb_le; lia).
    rewrite <- Hlen16, firstn_app, firstn_all, Nat.sub_diag, firstn_O,
      app_nil_r. reflexivity.
Qed.

Lemma decode_address_decodes_witness :
  decode_address plain_env ([4; 1; -69] ++ [10; 0; 0; 2] ++ [99])
  = (16, ss_in (uint8_t 1 * 256 + uint8_t (-69)) [10; 0; 0; 2]) /\
  decode_address plain_env
    ([6; 1; -69] ++ [32; 1; 13; -72; 0; 0; 0; 0; 0; 0; 0; 0; 0; 0; 0; 1]
     ++ [99])
  = (28, ss_in6 (uint8_t 1 * 256 + uint8_t (-69))
           [32; 1; 13; -72; 0; 0; 0; 0; 0; 0; 0; 0; 0; 0; 0; 1]).
Proof.
  apply (decode_address_decodes plain_env 1 (-69) [10; 0; 0; 2]
           [32; 1; 13; -72; 0; 0; 0; 0; 0; 0; 0; 0; 0; 0; 0; 1] [99]);
    reflexivity.
Defined.

Example decode_address_https_port :
  decode_address plain_env [4; 1; -69; 10; 0; 0; 2; 99]
  = (16, ss_in 443 [10; 0; 0; 2]).
Proof. reflexivity. Qed.

(** X2: whatever the array, the returned length and the storage agree: an
    IPv4 endpoint comes with length 16, a 4-byte address and a 16-bit port,
    an IPv6 endpoint with length 28, a 16-byte address and a 16-bit port,
    and a storage without endpoint with length 0. *)
Theorem decode_address_endpoint (env : JNIEnv) (addr_arr : jbyteArray) :
  match decode_address env addr_arr with
  | (sa_len, ss_in port addr) =>
      sa_len = 16 /\ length addr = 4%nat /\ 0 <= port < 65536
  | (sa_len, ss_in6 port addr) =>
      sa_len = 28 /\ length addr = 16%nat /\ 0 <= port < 65536
  | (sa_len, _) => sa_len = 0
  end.
Proof.
  unfold decode_address.
  destruct (GetByteArrayElements_ok env); cbn [negb]; [| reflexivity].
  assert (Hport : forall z, 0 <= uint16_t z < 65536).
  { intros z. unfold uint16_t, to_unsigned. apply Z.mod_pos_bound.
    reflexivity. }
  destruct (uint8_t (byte_at env addr_arr 0) =? 4);
    destruct (Z.of_nat (length addr_arr) >=? 7) eqn:L7; cbn [andb];
    try (apply Z.geb_le in L7; repeat split; try apply Hport;
         unfold sub_bytes; rewrite length_firstn, length_skipn; lia).
  all: destruct (uint8_t (byte_at env addr_arr 0) =? 6);
    destruct (Z.of_nat (length addr_arr) >=? 19) eqn:L19; cbn [andb];
    try reflexivity;
    apply Z.geb_le in L19; repeat split; try apply Hport;
    unfold sub_bytes; rewrite length_firstn, length_skipn; lia.
Qed.

(** ** Packet and stream I/O *)

Lemma decode_address_short (env : JNIEnv) (addr_arr : jbyteArray) :
  Z.of_nat (length addr_arr) < 7 ->
  decode_address env addr_arr = (0, ss_untouched) \/
  decode_address env addr_arr = (0, ss_zeroed).
Proof.
  intros Hshort. unfold decode_address.
  destruct (GetByteArrayElements_ok env); cbn [negb]; [| left; reflexivity].
  replace (Z.of_nat (length addr_arr) >=? 7) with false
    by (symmetry; rewrite Z.geb_leb; apply Z.leb_gt; lia).
  replace (Z.of_nat (length addr_arr) >=? 19) with false
    by (symmetry; rewrite Z.geb_leb; apply Z.leb_gt; lia).
  rewrite !andb_false_r. right. reflexivity.
Qed.

(** X3: receive does not report an address it cannot decode.  Over a direct
    buffer, with a source address array shorter than 7 bytes, the datagram
    is still handed to the engine, once, with a source length of 0, and the
    engine's answer is what the method returns. *)
Theorem conn_recv_ignores_address_errors
    (env : JNIEnv) (conn : Z) (buf : ByteBuffer) (len : Z)
    (from_addr to_addr : jbyteArray) (S : Type) (eng : engine S) (s : S) :
  GetDirectBufferAddress buf <> 0 ->
  Z.of_nat (length from_addr) < 7 ->
  exists info : quiche_recv_info,
    from_len info = 0 /\
    no_endpoint (from info) /\
    calls eng
      (quiche_jni.quiche_1conn_1recv env conn buf len from_addr to_addr) s
    = [Called (quiche_conn_recv conn (GetDirectBufferAddress buf)
                 (size_t len) info)] /\
    run eng
      (quiche_jni.quiche_1conn_1recv env conn buf len from_addr to_addr) s
    = (jint (fst (eng _ (quiche_conn_recv conn (GetDirectBufferAddress buf)
                           (size_t len) info) s)),
       snd (eng _ (quiche_conn_recv conn (GetDirectBufferAddress buf)
                     (size_t len) info) s)).
Proof.
  intros Hdirect Hshort.
  pose proof (decode_address_short env from_addr Hshort) as Hfrom.
  unfold quiche_jni.quiche_1conn_1recv.
  apply Z.eqb_neq in Hdirect. rewrite Hdirect.
  destruct (decode_address env to_addr) as [tl ts].
  destruct Hfrom as [-> | ->].
  - eexists {| from := ss_untouched; from_len := 0; to := ts; to_len := tl |}.
    cbn [from_len from bind call calls run].
    destruct (eng Z _ s) as [recv_len s']. cbn [fst snd calls run].
    repeat split. left. reflexivity.
  - eexists {| from := ss_zeroed; from_len := 0; to := ts; to_len := tl |}.
    cbn [from_len from bind call calls run].
    destruct (eng Z _ s) as [recv_len s']. cbn [fst snd calls run].
    repeat split. right. reflexivity.
Qed.

Lemma conn_recv_ignores_address_errors_witness :
  exists info : quiche_recv_info,
    from_len info = 0 /\
    no_endpoint (from info) /\
    calls idle_engine
      (quiche_jni.quiche_1conn_1recv plain_env 7 direct_buffer 1200
         [4; 0; 80] [4; 1; -69; 10; 0; 0; 2]) tt
    = [Called (quiche_conn_recv 7 (GetDirectBufferAddress direct_buffer)
                 (size_t 1200) info)] /\
    run idle_engine
      (quiche_jni.quiche_1conn_1recv plain_env 7 direct_buffer 1200
         [4; 0; 80] [4; 1; -69; 10; 0; 0; 2]) tt
    = (jint (fst (idle_engine _
                    (quiche_conn_recv 7 (GetDirectBufferAddress direct_buffer)
                       (size_t 1200) info) tt)),
       snd (idle_engine _
              (quiche_conn_recv 7 (GetDirectBufferAddress direct_buffer)
                 (size_t 1200) info) tt)).
Proof.
  apply (conn_recv_ignores_address_errors plain_env 7 direct_buffer 1200
           [4; 0; 80] [4; 1; -69; 10; 0; 0; 2] unit idle_engine tt).
  - discriminate.
  - simpl. lia.
Defined.

Lemma size_t_negative (len : Z) :
  - 2 ^ 31 <= len < 0 -> size_t len = len + 2 ^ 64.
Proof.
  intros Hlen. unfold size_t, to_unsigned.
  change (2 ^ 31) with 2147483648 in Hlen.
  change (2 ^ 64) with 18446744073709551616.
  rewrite <- (Z.mod_add len 1 18446744073709551616) by lia.
  apply Z.mod_small. lia.
Qed.

(** X4: the length is not checked.  Over a direct buffer a negative [len]
    is not rejected: send, stream receive, stream send and body receive
    each call the engine once, with the length [len + 2^64]. *)
Theorem negative_length_reaches_engine
    (env : JNIEnv) (h3 conn stream_id : Z) (buf : ByteBuffer) (len : Z)
    (fin : bool) (S : Type) (eng : engine S) (s : S) :
  GetDirectBufferAddress buf <> 0 ->
  - 2 ^ 31 <= len < 0 ->
  calls eng (quiche_jni.quiche_1conn_1send env conn buf len) s
  = [Called (quiche_conn_send conn (GetDirectBufferAddress buf)
               (len + 2 ^ 64))] /\
  calls eng (quiche_jni.quiche_1conn_1stream_1recv env conn stream_id buf len)
    s
  = [Called (quiche_conn_stream_recv conn (uint64_t stream_id)
               (GetDirectBufferAddress buf) (len + 2 ^ 64))] /\
  calls eng
    (quiche_jni.quiche_1conn_1stream_1send env conn stream_id buf len fin) s
  = [Called (quiche_conn_stream_send conn (uint64_t stream_id)
               (GetDirectBufferAddress buf) (len + 2 ^ 64) fin)] /\
  calls eng (h3_jni.quiche_1h3_1recv_1body env h3 conn stream_id buf len) s
  = [Called (quiche_h3_recv_body h3 conn (uint64_t stream_id)
               (GetDirectBufferAddress buf) (len + 2 ^ 64))].
Proof.
  intros Hdirect Hlen. apply Z.eqb_neq in Hdirect.
  unfold quiche_jni.quiche_1conn_1send, quiche_jni.quiche_1conn_1stream_1recv,
    quiche_jni.quiche_1conn_1stream_1send, h3_jni.quiche_1h3_1recv_1body.
  rewrite Hdirect, (size_t_negative len Hlen).
  cbn [bind call calls].
  repeat split;
    match goal with
    | |- context [eng ?T ?e s] => destruct (eng T e s) as [answer s']
    end;
    try destruct answer as [recv_len is_fin];
    try destruct (recv_len >=? 0); reflexivity.
Qed.

Lemma negative_length_reaches_engine_witness :
  calls idle_engine (quiche_jni.quiche_1conn_1send plain_env 7 direct_buffer (-1))
    tt
  = [Called (quiche_conn_send 7 (GetDirectBufferAddress direct_buffer)
               (-1 + 2 ^ 64))] /\
  calls idle_engine
    (quiche_jni.quiche_1conn_1stream_1recv plain_env 7 4 direct_buffer (-1))
    tt
  = [Called (quiche_conn_stream_recv 7 (uint64_t 4)
               (GetDirectBufferAddress direct_buffer) (-1 + 2 ^ 64))] /\
  calls idle_engine
    (quiche_jni.quiche_1conn_1stream_1send plain_env 7 4 direct_buffer (-1)
       true) tt
  = [Called (quiche_conn_stream_send 7 (uint64_t 4)
               (GetDirectBufferAddress direct_buffer) (-1 + 2 ^ 64) true)] /\
  calls idle_engine
    (h3_jni.quiche_1h3_1recv_1body plain_env 9 7 4 direct_buffer (-1)) tt
  = [Called (quiche_h3_recv_body 9 7 (uint64_t 4)
               (GetDirectBufferAddress direct_buffer) (-1 + 2 ^ 64))].
Proof.
  apply (negative_length_reaches_engine plain_env 9 7 4 direct_buffer (-1)
           true unit idle_engine tt).
  - discriminate.
  - simpl. lia.
Defined.

Lemma run_call_jint {S : Type} (eng : engine S) (e : quicheE Z) (s : S) :
  - 2 ^ 31 <= fst (eng Z e s) < 2 ^ 31 ->
  run eng (r <- call e ;; Ret (jint r)) s = eng Z e s.
Proof.
  intros Hfit. cbn [bind call run].
  destruct (eng Z e s) as [r s']. cbn [fst] in Hfit. cbn [run].
  rewrite jint_small by (simpl in Hfit; lia). reflexivity.
Qed.

(** X5: results are passed through.  Over a direct buffer, when the
    engine's answer fits a [jint], send, stream send and body receive return
    that answer and leave the engine in the state the call left it; stream
    receive likewise returns the engine's count, and stores the engine's
    [fin] flag exactly when the count is not negative. *)
Theorem engine_result_is_returned
    (env : JNIEnv) (h3 conn stream_id : Z) (buf : ByteBuffer) (len : Z)
    (fin : bool) (S : Type) (eng : engine S) (s : S) :
  let data := GetDirectBufferAddress buf in
  let send := quiche_conn_send conn data (size_t len) in
  let stream_send :=
    quiche_conn_stream_send conn (uint64_t stream_id) data (size_t len) fin in
  let recv_body :=
    quiche_h3_recv_body h3 conn (uint64_t stream_id) data (size_t len) in
  let stream_recv :=
    quiche_conn_stream_recv conn (uint64_t stream_id) data (size_t len) in
  data <> 0 ->
  - 2 ^ 31 <= fst (eng _ send s) < 2 ^ 31 ->
  - 2 ^ 31 <= fst (eng _ stream_send s) < 2 ^ 31 ->
  - 2 ^ 31 <= fst (eng _ recv_body s) < 2 ^ 31 ->
  - 2 ^ 31 <= fst (fst (eng _ stream_recv s)) < 2 ^ 31 ->
  run eng (quiche_jni.quiche_1conn_1send env conn buf len) s = eng _ send s /\
  run eng
    (quiche_jni.quiche_1conn_1stream_1send env conn stream_id buf len fin) s
  = eng _ stream_send s /\
  run eng (h3_jni.quiche_1h3_1recv_1body env h3 conn stream_id buf len) s
  = eng _ recv_body s /\
  run eng (quiche_jni.quiche_1conn_1stream_1recv env conn stream_id buf len) s
  = ((fst (fst (eng _ stream_recv s)),
      if 0 <=? fst (fst (eng _ stream_recv s))
      then Some (snd (fst (eng _ stream_recv s))) else None),
     snd (eng _ stream_recv s)).
Proof.
  intros data send stream_send recv_body stream_recv Hdirect H1 H2 H3 H4.
  apply Z.eqb_neq in Hdirect.
  unfold quiche_jni.quiche_1conn_1send, quiche_jni.quiche_1conn_1stream_1recv,
    quiche_jni.quiche_1conn_1stream_1send, h3_jni.quiche_1h3_1recv_1body.
  fold data. rewrite Hdirect.
  split; [apply run_call_jint; exact H1 |].
  split; [apply run_call_jint; exact H2 |].
  split; [apply run_call_jint; exact H3 |].
  cbn [bind call run]. fold stream_recv.
  destruct (eng _ stream_recv s) as [[recv_len is_fin] s'].
  cbn [fst snd] in *. rewrite Z.geb_leb.
  destruct (0 <=? recv_len); cbn [run];
    rewrite jint_small by (simpl in H4; lia); reflexivity.
Qed.

Lemma engine_result_is_returned_witness :
  run idle_engine (quiche_jni.quiche_1conn_1send plain_env 7 direct_buffer 1200)
    tt
  = idle_engine _ (quiche_conn_send 7 4096 (size_t 1200)) tt /\
  run idle_engine
    (quiche_jni.quiche_1conn_1stream_1send plain_env 7 4 direct_buffer 1200
       true) tt
  = idle_engine _
      (quiche_conn_stream_send 7 (uint64_t 4) 4096 (size_t 1200) true) tt /\
  run idle_engine
    (h3_jni.quiche_1h3_1recv_1body plain_env 9 7 4 direct_buffer 1200) tt
  = idle_engine _ (quiche_h3_recv_body 9 7 (uint64_t 4) 4096 (size_t 1200))
      tt /\
  run idle_engine
    (quiche_jni.quiche_1conn_1stream_1recv plain_env 7 4 direct_buffer 1200)
    tt
  = ((0, Some false), tt).
Proof.
  apply (engine_result_is_returned plain_env 9 7 4 direct_buffer 1200 true
           unit idle_engine tt).
  - discriminate.
  - simpl. lia.
  - simpl. lia.
  - simpl. lia.
  - simpl. lia.
Defined.

(** ** Packet-header info, read back *)

Lemma app_inv_same_length {A : Type} (a b x y : list A) :
  length a = length b -> a ++ x = b ++ y -> a = b /\ x = y.
Proof.
  revert b. induction a as [| h a IH]; intros [| h' b] Hlen Heq;
    simpl in *; try discriminate; [auto |].
  inversion Heq; subst. destruct (IH b) as [-> ->]; auto.
Qed.

Lemma jbyte_inj (a b : Z) :
  0 <= a < 256 -> 0 <= b < 256 -> jbyte a = jbyte b -> a = b.
Proof.
  intros Ha Hb E. apply (f_equal uint8_t) in E.
  rewrite !uint8_t_jbyte in E. unfold uint8_t, to_unsigned in E.
  rewrite !Z.mod_small in E by (simpl; lia). exact E.
Qed.

Lemma map_jbyte_inj (l m : list Z) :
  Forall (fun b => 0 <= b < 256) l -> Forall (fun b => 0 <= b < 256) m ->
  map jbyte l = map jbyte m -> l = m.
Proof.
  intros Hl. revert m. induction Hl as [| a l Ha _ IH]; intros m Hm E.
  - destruct m; [reflexivity | discriminate].
  - destruct m as [| b m]; [discriminate |].
    inversion Hm; subst. inversion E.
    f_equal; [apply jbyte_inj; assumption | apply IH; assumption].
Qed.

(** X6: the packet-header-info array is unambiguous: two parsed headers
    that give the same array have the same version, type, connection IDs
    and token. *)
Theorem header_info_result_injective (out1 out2 : header_info_out) :
  header_info_fits out1 -> header_info_bytes out1 ->
  header_info_fits out2 -> header_info_bytes out2 ->
  quiche_jni.header_info_result out1 = quiche_jni.header_info_result out2 ->
  out1 = out2.
Proof.
  intros Hf1 Hb1 Hf2 Hb2 E.
  rewrite !header_info_result_layout in E by assumption.
  destruct Hf1 as (Hv1 & _), Hf2 as (Hv2 & _).
  destruct Hb1 as (Ht1 & Hs1 & Hd1 & Hk1), Hb2 as (Ht2 & Hs2 & Hd2 & Hk2).
  pose proof (be32_value _ Hv1) as V1. pose proof (be32_value _ Hv2) as V2.
  destruct out1 as [v1 t1 s1 d1 k1], out2 as [v2 t2 s2 d2 k2].
  unfold header_info_layout in E.
  cbn [hi_version hi_type hi_scid hi_dcid hi_token] in *.
  apply app_inv_same_length in E; [| reflexivity].
  destruct E as [Ever E]. rewrite Ever in V1.
  assert (v1 = v2).
  { destruct (map uint8_t (map jbyte (be32 v2))) as [| ? [| ? [| ? [| ? [|]]]]];
      try contradiction. congruence. }
  subst v2. cbn [app] in E.
  inversion E as [[Ety Edl E']]. clear E.
  apply jbyte_inj in Ety; [| assumption ..]. subst t2.
  apply Nat2Z.inj in Edl.
  apply app_inv_same_length in E'; [| rewrite !length_map; exact Edl].
  destruct E' as [Ed E]. apply map_jbyte_inj in Ed; [| assumption ..]. subst d2.
  inversion E as [[Esl E']]. clear E.
  apply Nat2Z.inj in Esl.
  apply app_inv_same_length in E'; [| rewrite !length_map; exact Esl].
  destruct E' as [Es E]. apply map_jbyte_inj in Es; [| assumption ..]. subst s2.
  inversion E as [[Ekl Ek]].
  apply map_jbyte_inj in Ek; [| assumption ..]. subst k2.
  reflexivity.
Qed.

Lemma header_info_result_injective_witness :
  crafted_header = crafted_header.
Proof.
  apply (header_info_result_injective crafted_header crafted_header).
  - unfold header_info_fits, quiche_jni.QUICHE_MAX_CONN_ID_LEN,
      quiche_jni.sizeof_token, crafted_header.
    cbn [hi_version hi_scid hi_dcid hi_token length]. lia.
  - unfold header_info_bytes, crafted_header.
    cbn [hi_type hi_scid hi_dcid hi_token].
    repeat split; try lia; repeat constructor; lia.
  - unfold header_info_fits, quiche_jni.QUICHE_MAX_CONN_ID_LEN,
      quiche_jni.sizeof_token, crafted_header.
    cbn [hi_version hi_scid hi_dcid hi_token length]. lia.
  - unfold header_info_bytes, crafted_header.
    cbn [hi_type hi_scid hi_dcid hi_token].
    repeat split; try lia; repeat constructor; lia.
  - reflexivity.
Defined.

(** X7: packet-header info returns NULL exactly when the buffer is not
    direct, the engine rejects the packet or the array cannot be allocated,
    and it never calls the engine for a buffer that is not direct; an array
    it returns has between 8 and 112 bytes. *)
Theorem header_info_null_or_bounded
    (env : JNIEnv) (buf : ByteBuffer) (len : Z)
    (S : Type) (eng : engine S) (s : S) :
  let data := GetDirectBufferAddress buf in
  let answer :=
    fst (eng _ (quiche_header_info data (size_t len) 20 20 20 64) s) in
  header_info_fits (snd answer) ->
  (data = 0 ->
   returns_without_engine (quiche_jni.quiche_1header_1info env buf len) None) /\
  match fst (run eng (quiche_jni.quiche_1header_1info env buf len) s) with
  | None => data = 0 \/ fst answer < 0 \/ NewArray_ok env = false
  | Some result =>
      data <> 0 /\ 0 <= fst answer /\ NewArray_ok env = true /\
      8 <= Z.of_nat (length result) <= 112
  end.
Proof.
  intros data answer Hfits. unfold quiche_jni.quiche_1header_1info.
  fold data. split.
  - intros ->. apply Ret_returns_without_engine.
  - destruct (data =? 0) eqn:Hdata.
    + left. apply Z.eqb_eq. exact Hdata.
    + apply Z.eqb_neq in Hdata. cbn [bind call run].
      unfold quiche_jni.QUICHE_MAX_CONN_ID_LEN, quiche_jni.sizeof_token.
      subst answer. cbv zeta in Hfits.
      destruct (eng _ (quiche_header_info data (size_t len) 20 20 20 64) s)
        as [[rc out] s'].
      cbn [fst snd bind] in *.
      destruct (rc <? 0) eqn:Hrc; cbn [run fst].
      * right. left. apply Z.ltb_lt. exact Hrc.
      * apply Z.ltb_ge in Hrc.
        destruct (NewArray_ok env); cbn [negb run fst]; [| auto].
        repeat split; try assumption.
        all: rewrite header_info_result_layout, header_info_layout_length
          by exact Hfits;
          destruct Hfits as (_ & Hs & Hd & Ht);
          unfold quiche_jni.QUICHE_MAX_CONN_ID_LEN, quiche_jni.sizeof_token
            in *; lia.
Qed.

Lemma header_info_null_or_bounded_witness :
  (GetDirectBufferAddress direct_buffer = 0 ->
   returns_without_engine
     (quiche_jni.quiche_1header_1info plain_env direct_buffer 1200) None) /\
  match
    fst (run (header_engine crafted_header)
           (quiche_jni.quiche_1header_1info plain_env direct_buffer 1200) tt)
  with
  | None =>
      GetDirectBufferAddress direct_buffer = 0 \/ 0 < 0 \/
      NewArray_ok plain_env = false
  | Some result =>
      GetDirectBufferAddress direct_buffer <> 0 /\ 0 <= 0 /\
      NewArray_ok plain_env = true /\
      8 <= Z.of_nat (length result) <= 112
  end.
Proof.
  apply (header_info_null_or_bounded plain_env direct_buffer 1200 unit
           (header_engine crafted_header) tt).
  unfold header_info_fits, quiche_jni.QUICHE_MAX_CONN_ID_LEN,
    quiche_jni.sizeof_token.
  cbn [header_engine fst snd crafted_header hi_version hi_scid hi_dcid
         hi_token length]. lia.
Defined.

(** ** What a poll returns *)

(** X8: when the two-element result array cannot be allocated, poll returns
    NULL although the engine delivered an event: the engine was polled, and
    the event is in the slot. *)
Theorem poll_array_failure_keeps_event
    (env : JNIEnv) (h3 conn slot : Z) (S : Type) (eng : engine S) (s : S) :
  let answer :=
    fst (eng _ (quiche_h3_conn_poll h3 conn) (after_release eng slot s)) in
  NewArray_ok env = false ->
  0 <= fst answer ->
  fst (run eng (h3_jni.quiche_1h3_1conn_1poll env h3 conn slot) s)
  = (None, snd answer) /\
  In (Called (quiche_h3_conn_poll h3 conn))
     (calls eng (h3_jni.quiche_1h3_1conn_1poll env h3 conn slot) s).
Proof.
  intros answer Hnew Hsid. split.
  - subst answer. rewrite poll_after_release.
    revert Hsid. generalize (after_release eng slot s). intros s0 Hsid.
    unfold h3_jni.quiche_1h3_1conn_1poll. cbn [negb bind call run Z.eqb].
    destruct (eng _ (quiche_h3_conn_poll h3 conn) s0) as [[sid ev] s1].
    cbn [fst snd] in *.
    replace (sid <? 0) with false by (symmetry; apply Z.ltb_ge; exact Hsid).
    rewrite Hnew. cbn [negb bind run].
    destruct (eng _ (quiche_h3_event_type ev) s1) as [ty s2]. reflexivity.
  - destruct (poll_calls env eng h3 conn slot s) as [rest ->].
    apply in_or_app. right. left. reflexivity.
Qed.

Lemma poll_array_failure_keeps_event_witness :
  fst (run (scripted_engine sample_headers)
         (h3_jni.quiche_1h3_1conn_1poll no_array_env 9 7 0) [(9, 4, 200)])
  = (None, 200) /\
  In (Called (quiche_h3_conn_poll 9 7))
     (calls (scripted_engine sample_headers)
        (h3_jni.quiche_1h3_1conn_1poll no_array_env 9 7 0) [(9, 4, 200)]).
Proof.
  apply (poll_array_failure_keeps_event no_array_env 9 7 0 _
           (scripted_engine sample_headers) [(9, 4, 200)]).
  - reflexivity.
  - simpl. lia.
Defined.

(** X9: with the result array allocated, poll returns NULL exactly when the
    engine reports a negative stream ID; otherwise it returns the engine's
    stream ID with a kind code between -1 and 4, which is 0 exactly for a
    Headers event. *)
Theorem poll_reports_event
    (env : JNIEnv) (h3 conn slot : Z) (S : Type) (eng : engine S) (s : S) :
  let polling :=
    eng _ (quiche_h3_conn_poll h3 conn) (after_release eng slot s) in
  let stream_id := fst (fst polling) in
  let kind :=
    fst (eng _ (quiche_h3_event_type (snd (fst polling))) (snd polling)) in
  let result :=
    fst (fst (run eng (h3_jni.quiche_1h3_1conn_1poll env h3 conn slot) s)) in
  NewArray_ok env = true ->
  - 2 ^ 63 <= stream_id < 2 ^ 63 ->
  (stream_id < 0 -> result = None) /\
  (0 <= stream_id ->
   exists code,
     result = Some (stream_id, code) /\ -1 <= code <= 4 /\
     (code = 0 <-> kind = QUICHE_H3_EVENT_HEADERS)).
Proof.
  intros polling stream_id kind result Hnew Hrange.
  subst result. rewrite poll_after_release.
  subst stream_id kind polling. revert Hrange.
  generalize (after_release eng slot s). intros s0 Hrange.
  unfold h3_jni.quiche_1h3_1conn_1poll. cbn [negb bind call run Z.eqb].
  destruct (eng _ (quiche_h3_conn_poll h3 conn) s0) as [[sid ev] s1].
  cbn [fst snd] in *.
  destruct (sid <? 0) eqn:E.
  - apply Z.ltb_lt in E. split; [reflexivity | lia].
  - apply Z.ltb_ge in E. split; [lia | intros _].
    cbn [bind run].
    destruct (eng _ (quiche_h3_event_type ev) s1) as [ty s2].
    rewrite Hnew. cbn [negb run fst].
    rewrite (jlong_small sid) by exact Hrange.
    destruct ty; eexists; (split; [reflexivity |]);
      (split; [rewrite jlong_small by (simpl; lia); lia |]);
      rewrite jlong_small by (simpl; lia);
      split; intros H; try discriminate; try reflexivity; try lia.
Qed.

Lemma poll_reports_event_witness :
  (4 < 0 ->
   fst (fst (run (scripted_engine sample_headers)
               (h3_jni.quiche_1h3_1conn_1poll plain_env 9 7 100)
               [(9, 4, 200)])) = None) /\
  (0 <= 4 ->
   exists code,
     fst (fst (run (scripted_engine sample_headers)
                 (h3_jni.quiche_1h3_1conn_1poll plain_env 9 7 100)
                 [(9, 4, 200)])) = Some (4, code) /\
     -1 <= code <= 4 /\
     (code = 0 <-> QUICHE_H3_EVENT_HEADERS = QUICHE_H3_EVENT_HEADERS)).
Proof.
  apply (poll_reports_event plain_env 9 7 100 _
           (scripted_engine sample_headers) [(9, 4, 200)]).
  - reflexivity.
  - simpl. lia.
Defined.

(** ** Reading headers when memory runs out *)

(** One call of the callback on a consistent collector.  It is undefined
    only when a full collector has reached a capacity of 2^30; it succeeds
    with the two copies appended, below the capacity; or it fails with the
    entries as they were, and with an array freed exactly when one of the
    two [realloc] calls gave a block and the other did not. *)
Lemma header_cb_step (env : JNIEnv) (n v : list Z) (nl vl : Z)
    (hc : h3_jni.header_collector) :
  collector_ok hc ->
  match h3_jni.header_cb env n nl v vl hc with
  | Undefined => 2 ^ 30 <= h3_jni.capacity hc <= h3_jni.count hc
  | Returned (rc, hc') =>
      (rc = 0 /\ collector_ok hc' /\
       h3_jni.count hc' = h3_jni.count hc + 1 /\
       h3_jni.count hc < h3_jni.capacity hc' /\
       h3_jni.names hc' = h3_jni.names hc ++ [firstn (Z.to_nat nl) n ++ [0]] /\
       h3_jni.values hc'
       = h3_jni.values hc ++ [firstn (Z.to_nat vl) v ++ [0]]) \/
      (rc = -1 /\
       h3_jni.count hc' = h3_jni.count hc /\
       h3_jni.names hc' = h3_jni.names hc /\
       h3_jni.values hc' = h3_jni.values hc /\
       (half_grown env hc ->
        h3_jni.names_freed hc' = true \/ h3_jni.values_freed hc' = true) /\
       (~ half_grown env hc ->
        h3_jni.names_freed hc' = false /\ h3_jni.values_freed hc' = false))
  end.
Proof.
  unfold collector_ok, half_grown, h3_jni.header_cb, h3_jni.store_header.
  change (2 ^ 30) with 1073741824. change (2 ^ 31) with 2147483648.
  intros (Hc & Hcap & Hn & Hv & Hnf & Hvf).
  destruct (h3_jni.count hc >=? h3_jni.capacity hc) eqn:Hfull;
    [ apply Z.geb_le in Hfull
    | rewrite Z.geb_leb in Hfull; apply Z.leb_gt in Hfull ].
  - match goal with
    | |- context [if ?b then Undefined else _] => destruct b eqn:Hover
    end.
    { apply orb_true_iff in Hover. rewrite Z.ltb_lt, Z.leb_le in Hover. lia. }
    apply orb_false_iff in Hover. rewrite Z.ltb_ge, Z.leb_gt in Hover.
    destruct (malloc_ok env site_grow_names (h3_jni.count hc)) eqn:Egn;
      destruct (malloc_ok env site_grow_values (h3_jni.count hc)) eqn:Egv;
      cbn [negb orb h3_jni.count h3_jni.capacity h3_jni.names h3_jni.values
             h3_jni.names_freed h3_jni.values_freed];
      rewrite ?Hnf, ?Hvf; cbn [orb].
    + destruct (negb (malloc_ok env site_name (h3_jni.count hc))
                || negb (malloc_ok env site_value (h3_jni.count hc)));
        cbn [h3_jni.count h3_jni.capacity h3_jni.names h3_jni.values
               h3_jni.names_freed h3_jni.values_freed].
      * right. do 4 (split; [reflexivity |]). split.
        -- intros [_ H]. exfalso. apply H. reflexivity.
        -- intros _. split; (assumption || reflexivity).
      * left. rewrite !length_app. cbn [length].
        repeat match goal with |- _ /\ _ => split end;
          try reflexivity; try assumption; lia.
    + right. do 4 (split; [reflexivity |]). split.
      * intros _. left. reflexivity.
      * intros H. exfalso. apply H. split; [lia | discriminate].
    + right. do 4 (split; [reflexivity |]). split.
      * intros _. right. reflexivity.
      * intros H. exfalso. apply H. split; [lia | discriminate].
    + right. do 4 (split; [reflexivity |]). split.
      * intros [_ H]. exfalso. apply H. reflexivity.
      * intros _. split; reflexivity.
  - destruct (negb (malloc_ok env site_name (h3_jni.count hc))
              || negb (malloc_ok env site_value (h3_jni.count hc)));
      cbn [h3_jni.count h3_jni.capacity h3_jni.names h3_jni.values
             h3_jni.names_freed h3_jni.values_freed].
    + right. do 4 (split; [reflexivity |]). split.
      * intros [H _]. lia.
      * intros _. split; (assumption || reflexivity).
    + left. rewrite !length_app. cbn [length].
      repeat match goal with |- _ /\ _ => split end;
        try reflexivity; try assumption; lia.
Qed.

(** A run of the callback over the headers of an event. *)
Lemma for_each_header_run (env : JNIEnv) (headers : list (list Z * list Z)) :
  forall hc : h3_jni.header_collector,
    collector_ok hc ->
    match h3_jni.for_each_header headers (h3_jni.header_cb env) hc with
    | Undefined => 2 ^ 30 < h3_jni.count hc + Z.of_nat (length headers)
    | Returned (rc, hc') =>
        (rc = 0 /\ collector_ok hc' /\
         h3_jni.count hc' = h3_jni.count hc + Z.of_nat (length headers) /\
         h3_jni.names hc'
         = h3_jni.names hc ++ map (fun h => fst h ++ [0]) headers /\
         h3_jni.values hc'
         = h3_jni.values hc ++ map (fun h => snd h ++ [0]) headers) \/
        (rc = -1 /\
         h3_jni.count hc' < h3_jni.count hc + Z.of_nat (length headers) /\
         ((h3_jni.names_freed hc' = false /\ h3_jni.values_freed hc' = false)
          \/ exists i,
               malloc_ok env site_grow_names i
               <> malloc_ok env site_grow_values i))
    end.
Proof.
  induction headers as [| [n v] rest IH]; intros hc Hok.
  - cbn [h3_jni.for_each_header length map]. left.
    rewrite Z.add_0_r, !app_nil_r. auto.
  - cbn [h3_jni.for_each_header length].
    pose proof (header_cb_step env n v (Z.of_nat (length n))
                  (Z.of_nat (length v)) hc Hok) as Hstep.
    rewrite !firstn_length_Z in Hstep.
    destruct (h3_jni.header_cb env n (Z.of_nat (length n)) v
                (Z.of_nat (length v)) hc) as [[rc hc1] |].
    + destruct Hstep as [(-> & Hok1 & Hc1 & _ & Hn1 & Hv1)
                        | (-> & Hc1 & _ & _ & Hhalf & Hwhole)].
      * cbn [Z.eqb]. specialize (IH hc1 Hok1).
        destruct (h3_jni.for_each_header rest (h3_jni.header_cb env) hc1)
          as [[rc hc2] |]; [| lia].
        destruct IH as [(-> & Hok2 & Hc2 & Hn2 & Hv2) | (-> & Hc2 & Hfreed)].
        -- left. rewrite Hn2, Hv2, Hn1, Hv1, <- !app_assoc.
           cbn [map fst snd app].
           split; [reflexivity |]. split; [exact Hok2 |].
           split; [lia |]. split; reflexivity.
        -- right. split; [reflexivity |]. split; [lia | exact Hfreed].
      * cbn [Z.eqb]. right. split; [reflexivity |]. split; [lia |].
        destruct (Bool.bool_dec
                    (malloc_ok env site_grow_names (h3_jni.count hc))
                    (malloc_ok env site_grow_values (h3_jni.count hc)))
          as [Esame | Ediff].
        -- left. apply Hwhole. intros [_ H]. exact (H Esame).
        -- right. exists (h3_jni.count hc). exact Ediff.
    + change (2 ^ 30) with 1073741824 in *. lia.
Qed.


Example event_headers_out_of_memory_at_second_header :
  run (scripted_engine sample_headers)
    (h3_jni.quiche_1h3_1event_1headers
       {| GetByteArrayElements_ok := true;
          GetLongArrayElements_ok := true;
          NewArray_ok := true;
          NewStringUTF_ok := fun _ => true;
          NewStringUTF_malformed := fun _ => [65533];
          malloc_ok := fun site i =>
            match site with site_value => negb (i =? 1) | _ => true end;
          stray_byte := fun _ _ => 0 |}
       9 200) []
  = (Returned None, []).
Proof. reflexivity. Qed.

(** With 33 headers the collector grows once; when only the first of the
    two [realloc] calls succeeds, the cleanup reads and frees an array that
    was freed already. *)
Example event_headers_after_half_a_growth :
  run (scripted_engine (fun _ => repeat ([120], [121]) 33))
    (h3_jni.quiche_1h3_1event_1headers half_grown_env 9 100) []
  = (Undefined, []) /\
  fst (run (scripted_engine (fun _ => repeat ([120], [121]) 32))
         (h3_jni.quiche_1h3_1event_1headers half_grown_env 9 100) [])
  = Returned (Some (flat_map (fun _ => [Some [120]; Some [121]]) (seq 0 32))).
Proof. split; vm_compute; reflexivity. Qed.

(** X11: the collector never overruns its arrays, and an array is freed
    under it only by half a growth.  It starts consistent.  On a consistent
    collector the callback either stores the two copies at an index below
    the capacity it has then, and leaves the collector consistent; or fails
    with the entries as they were, and with one of the arrays freed exactly
    when, the arrays being full, one of its two [realloc] calls gave a block
    and the other did not; or is undefined, the arrays being full at a
    capacity of 2^30 or more.  Over the headers of an event, a run that
    succeeds leaves a consistent collector with one entry per header, a run
    that fails leaves fewer, and a run is undefined only with more than 2^30
    headers. *)
Theorem collector_stays_within_capacity (env : JNIEnv) :
  collector_ok empty_collector /\
  (forall (hc : h3_jni.header_collector) (n v : list Z) (nl vl : Z),
     collector_ok hc ->
     match h3_jni.header_cb env n nl v vl hc with
     | Undefined => 2 ^ 30 <= h3_jni.capacity hc <= h3_jni.count hc
     | Returned (rc, hc') =>
         (rc = 0 /\ collector_ok hc' /\
          h3_jni.count hc' = h3_jni.count hc + 1 /\
          h3_jni.count hc < h3_jni.capacity hc') \/
         (rc = -1 /\
          h3_jni.count hc' = h3_jni.count hc /\
          h3_jni.names hc' = h3_jni.names hc /\
          h3_jni.values hc' = h3_jni.values hc /\
          (half_grown env hc ->
           h3_jni.names_freed hc' = true \/ h3_jni.values_freed hc' = true) /\
          (~ half_grown env hc ->
           h3_jni.names_freed hc' = false /\
           h3_jni.values_freed hc' = false))
     end) /\
  (forall headers : list (list Z * list Z),
     match h3_jni.for_each_header headers (h3_jni.header_cb env)
             empty_collector with
     | Undefined => 2 ^ 30 < Z.of_nat (length headers)
     | Returned (rc, hc') =>
         (rc = 0 /\ collector_ok hc' /\
          h3_jni.count hc' = Z.of_nat (length headers)) \/
         (rc = -1 /\ h3_jni.count hc' < Z.of_nat (length headers))
     end).
Proof.
  assert (Hempty : collector_ok empty_collector).
  { unfold collector_ok, empty_collector.
    cbn [h3_jni.count h3_jni.capacity h3_jni.names h3_jni.values
           h3_jni.names_freed h3_jni.values_freed length].
    change (2 ^ 31) with 2147483648. lia. }
  split; [exact Hempty | split].
  - intros hc n v nl vl Hok.
    pose proof (header_cb_step env n v nl vl hc Hok) as Hstep.
    destruct (h3_jni.header_cb env n nl v vl hc) as [[rc hc'] |];
      [| exact Hstep].
    destruct Hstep as [(H0 & Hok' & Hc & Hlt & _) | Hfail];
      [left; auto | right; exact Hfail].
  - intros headers.
    pose proof (for_each_header_run env headers empty_collector Hempty)
      as Hrun.
    destruct (h3_jni.for_each_header headers (h3_jni.header_cb env)
                empty_collector) as [[rc hc'] |];
      change (h3_jni.count empty_collector) with 0 in Hrun; [| lia].
    destruct Hrun as [(H0 & Hok' & Hc & _) | (H1 & Hc & _)].
    + left. split; [exact H0 |]. split; [exact Hok' | lia].
    + right. split; [exact H1 | lia].
Qed.

(** ** Sending headers and bodies *)

Lemma fill_h3_headers_ignores_tail (flat : list jstring) (x : jstring)
    (n : nat) :
  length flat = (2 * n)%nat ->
  h3_jni.fill_h3_headers (flat ++ [x]) (Z.of_nat n)
  = h3_jni.fill_h3_headers flat (Z.of_nat n).
Proof.
  intros Hlen. unfold h3_jni.fill_h3_headers. rewrite Nat2Z.id.
  apply map_ext_in. intros i Hi. apply in_seq in Hi.
  rewrite !app_nth1 by lia. reflexivity.
Qed.

(** X12: a flat array with an odd number of strings is sent as if its last
    string were not there: send-response and send-request are the same
    programs on [flat ++ [x]] as on [flat] when [flat] has even length. *)
Theorem unpaired_trailing_string_is_dropped
    (env : JNIEnv) (h3 conn stream_id : Z) (flat : list jstring)
    (x : jstring) (fin : bool) :
  Nat.Even (length flat) ->
  h3_jni.quiche_1h3_1send_1response env h3 conn stream_id (flat ++ [x]) fin
  = h3_jni.quiche_1h3_1send_1response env h3 conn stream_id flat fin /\
  h3_jni.quiche_1h3_1send_1request env h3 conn (flat ++ [x]) fin
  = h3_jni.quiche_1h3_1send_1request env h3 conn flat fin.
Proof.
  intros [n Hn].
  assert (Hq : Z.quot (Z.of_nat (length flat)) 2 = Z.of_nat n).
  { rewrite Hn, Nat2Z.inj_mul, Z.mul_comm. apply Z.quot_mul. lia. }
  assert (Hq' : Z.quot (Z.of_nat (length (flat ++ [x]))) 2 = Z.of_nat n).
  { rewrite length_app, Hn. cbn [length].
    rewrite Z.quot_div_nonneg by lia.
    replace (Z.of_nat (2 * n + 1)) with (1 + Z.of_nat n * 2) by lia.
    rewrite Z.div_add by lia. reflexivity. }
  unfold h3_jni.quiche_1h3_1send_1response, h3_jni.quiche_1h3_1send_1request.
  rewrite Hq, Hq', (fill_h3_headers_ignores_tail flat x n Hn).
  split; reflexivity.
Qed.

Lemma unpaired_trailing_string_is_dropped_witness :
  h3_jni.quiche_1h3_1send_1response plain_env 9 7 4 ([[97]; [98]] ++ [[99]])
    true
  = h3_jni.quiche_1h3_1send_1response plain_env 9 7 4 [[97]; [98]] true /\
  h3_jni.quiche_1h3_1send_1request plain_env 9 7 ([[97]; [98]] ++ [[99]]) true
  = h3_jni.quiche_1h3_1send_1request plain_env 9 7 [[97]; [98]] true.
Proof.
  apply (unpaired_trailing_string_is_dropped plain_env 9 7 4 [[97]; [98]]
           [99] true).
  exists 1%nat. reflexivity.
Defined.

(** X13: a body send returns [QUICHE_ERR_DONE] without an engine call
    exactly when there are bytes to send and they cannot be reached (the
    buffer is not direct and its array cannot be had or pinned).  In every
    other case it is one engine call: with NULL and 0 for an empty body, and
    otherwise with the length and the buffer's current position, in the
    direct buffer or in the pinned array after the array offset. *)
Theorem send_body_reaches_engine_unless_unavailable
    (env : JNIEnv) (h3 conn stream_id : Z) (buf : ByteBuffer) (len : Z)
    (fin : bool) :
  (body_unavailable buf len ->
   returns_without_engine
     (h3_jni.quiche_1h3_1send_1body env h3 conn stream_id buf len fin)
     quiche_jni.QUICHE_ERR_DONE) /\
  (~ body_unavailable buf len ->
   exists data n,
     h3_jni.quiche_1h3_1send_1body env h3 conn stream_id buf len fin
     = Vis (quiche_h3_send_body h3 conn (uint64_t stream_id) data n fin)
           (fun written => Ret (jint written)) /\
     (len = 0 -> data = 0 /\ n = 0) /\
     (len <> 0 -> n = size_t len) /\
     (len <> 0 -> GetDirectBufferAddress buf <> 0 ->
      data = GetDirectBufferAddress buf + position buf) /\
     (len <> 0 -> GetDirectBufferAddress buf = 0 ->
      exists bytes,
        array_elements buf = Some bytes /\
        data = bytes + jint (arrayOffset buf + position buf))).
Proof.
  unfold body_unavailable, h3_jni.quiche_1h3_1send_1body. split.
  - intros (Hlen & Hdirect & Harray).
    apply Z.eqb_neq in Hlen. rewrite Hlen, Hdirect. cbn [Z.eqb negb].
    destruct Harray as [-> | ->]; apply Ret_returns_without_engine.
  - intros Hreach.
    destruct (len =? 0) eqn:Hlen.
    + apply Z.eqb_eq in Hlen. exists 0, 0.
      split; [reflexivity |]. repeat split; intros; congruence.
    + apply Z.eqb_neq in Hlen.
      destruct (GetDirectBufferAddress buf =? 0) eqn:Hdirect; cbn [negb].
      * apply Z.eqb_eq in Hdirect.
        destruct (array_elements buf) as [bytes |] eqn:Harray;
          [| exfalso; apply Hreach; auto].
        destruct (bytes =? 0) eqn:Hbytes.
        { apply Z.eqb_eq in Hbytes. subst bytes.
          exfalso. apply Hreach. auto. }
        eexists _, _. split; [reflexivity |].
        repeat split; intros; try congruence.
        exists bytes. split; reflexivity.
      * apply Z.eqb_neq in Hdirect.
        eexists _, _. split; [reflexivity |].
        repeat split; intros; congruence.
Qed.

Example send_body_from_heap_buffer :
  calls idle_engine
    (h3_jni.quiche_1h3_1send_1body plain_env 9 7 4
       {| GetDirectBufferAddress := 0; position := 10;
          array_elements := Some 8192; arrayOffset := 2 |} 100 false) tt
  = [Called (quiche_h3_send_body 9 7 4 8204 100 false)].
Proof. reflexivity. Qed.

(** ** ALPN selection and the peer's order *)

Lemma find_ext_in {A : Type} (f g : A -> bool) (l : list A) :
  (forall a, In a l -> f a = g a) -> find f l = find g l.
Proof.
  induction l as [| a l IH]; intros H; simpl; [reflexivity |].
  rewrite <- (H a) by (left; reflexivity).
  destruct (f a); [reflexivity |].
  apply IH. intros b Hb. apply H. right. exact Hb.
Qed.

(** X14: the order in which the peer advertises its protocols does not
    matter.  On a context whose table was set, two well-formed peer lists
    with the same protocols get the same return code and, when a protocol is
    selected, the same protocol. *)
Theorem alpn_selection_ignores_peer_order
    (env : JNIEnv) (ctx0 : ssl_ctx_jni.SSL_CTX) (table : jbyteArray)
    (in1 in2 : list Z) (local peer1 peer2 : list (list Z)) :
  Z.of_nat (length table) < 2 ^ 31 ->
  alpn_list (map uint8_t table) = Some local ->
  ssl_is_valid_alpn_list in1 = Some peer1 ->
  ssl_is_valid_alpn_list in2 = Some peer2 ->
  (forall p, In p peer1 <-> In p peer2) ->
  let ctx := snd (ssl_ctx_jni.ssl_1ctx_1set_1alpn_1protos env ctx0 table) in
  fst (ssl_ctx_jni.alpn_select_cb ctx in1)
  = fst (ssl_ctx_jni.alpn_select_cb ctx in2) /\
  (fst (ssl_ctx_jni.alpn_select_cb ctx in1) = SSL_TLSEXT_ERR_OK ->
   ssl_ctx_jni.alpn_select_cb ctx in1 = ssl_ctx_jni.alpn_select_cb ctx in2).
Proof.
  intros Hlen Hlocal Hp1 Hp2 Hsame ctx. unfold ctx.
  rewrite (alpn_select_cb_find env ctx0 table in1 local peer1) by assumption.
  rewrite (alpn_select_cb_find env ctx0 table in2 local peer2) by assumption.
  rewrite (find_ext_in (fun p => existsb (bytes_eqb p) peer1)
             (fun p => existsb (bytes_eqb p) peer2) local).
  - destruct (find _ local); cbn [fst]; split;
      [reflexivity | reflexivity | reflexivity | discriminate].
  - intros p _.
    destruct (existsb (bytes_eqb p) peer1) eqn:E1;
      destruct (existsb (bytes_eqb p) peer2) eqn:E2; try reflexivity.
    + apply existsb_bytes_eqb, Hsame, existsb_bytes_eqb in E1. congruence.
    + apply existsb_bytes_eqb, Hsame, existsb_bytes_eqb in E2. congruence.
Qed.

Lemma alpn_selection_ignores_peer_order_witness :
  fst (ssl_ctx_jni.alpn_select_cb
         (snd (ssl_ctx_jni.ssl_1ctx_1set_1alpn_1protos plain_env fresh_ctx
                 (alpn_wire [proto_h3; proto_h2])))
         (alpn_wire [proto_h2; proto_h3]))
  = fst (ssl_ctx_jni.alpn_select_cb
           (snd (ssl_ctx_jni.ssl_1ctx_1set_1alpn_1protos plain_env fresh_ctx
                   (alpn_wire [proto_h3; proto_h2])))
           (alpn_wire [proto_h3; proto_h2])) /\
  (fst (ssl_ctx_jni.alpn_select_cb
          (snd (ssl_ctx_jni.ssl_1ctx_1set_1alpn_1protos plain_env fresh_ctx
                  (alpn_wire [proto_h3; proto_h2])))
          (alpn_wire [proto_h2; proto_h3]))
   = SSL_TLSEXT_ERR_OK ->
   ssl_ctx_jni.alpn_select_cb
     (snd (ssl_ctx_jni.ssl_1ctx_1set_1alpn_1protos plain_env fresh_ctx
             (alpn_wire [proto_h3; proto_h2])))
     (alpn_wire [proto_h2; proto_h3])
   = ssl_ctx_jni.alpn_select_cb
       (snd (ssl_ctx_jni.ssl_1ctx_1set_1alpn_1protos plain_env fresh_ctx
               (alpn_wire [proto_h3; proto_h2])))
       (alpn_wire [proto_h3; proto_h2])).
Proof.
  apply (alpn_selection_ignores_peer_order plain_env fresh_ctx
           (alpn_wire [proto_h3; proto_h2])
           (alpn_wire [proto_h2; proto_h3]) (alpn_wire [proto_h3; proto_h2])
           [proto_h3; proto_h2] [proto_h2; proto_h3] [proto_h3; proto_h2]).
  - simpl. lia.
  - reflexivity.
  - reflexivity.
  - reflexivity.
  - intros p. simpl. tauto.
Defined.

(** ** The life of the cached events *)

Section Transcripts.

Context {S : Type} (eng : engine S).

Lemma run_bind {A B : Type} (p : Prog A) (f : A -> Prog B) :
  forall s : S,
    run eng (bind p f) s
    = run eng (f (fst (run eng p s))) (snd (run eng p s)).
Proof.
  induction p as [a | T e k IH]; intros s; cbn [bind run fst snd];
    [reflexivity |].
  destruct (eng T e s) as [t s']. apply IH.
Qed.

Lemma transcript_bind {A B : Type} (p : Prog A) (f : A -> Prog B) :
  forall s : S,
    transcript eng (bind p f) s
    = transcript eng p s
      ++ transcript eng (f (fst (run eng p s))) (snd (run eng p s)).
Proof.
  induction p as [a | T e k IH]; intros s;
    cbn [bind run transcript fst snd app]; [reflexivity |].
  destruct (eng T e s) as [t s']. cbn [app]. rewrite IH. reflexivity.
Qed.

(** One poll releases what the slot held and leaves in it what the engine
    handed out. *)
Lemma poll_releases_and_keeps (env : JNIEnv) (h3 conn slot : Z) (s : S) :
  let p := h3_jni.quiche_1h3_1conn_1poll env h3 conn slot in
  flat_map released (transcript eng p s) = pending slot /\
  flat_map handed_out (transcript eng p s)
  = pending (snd (fst (run eng p s))).
Proof.
  cbv zeta. unfold h3_jni.quiche_1h3_1conn_1poll, pending.
  destruct (slot =? 0); cbn [negb bind call run transcript].
  - destruct (eng _ (quiche_h3_conn_poll h3 conn) s) as [[sid ev] s1].
    cbn [flat_map released handed_out fst snd app].
    destruct (sid <? 0) eqn:E; cbn [run transcript fst snd flat_map].
    + apply Z.ltb_lt in E.
      replace (0 <=? sid) with false by (symmetry; apply Z.leb_gt; exact E).
      split; reflexivity.
    + apply Z.ltb_ge in E.
      replace (0 <=? sid) with true by (symmetry; apply Z.leb_le; exact E).
      destruct (eng _ (quiche_h3_event_type ev) s1) as [ty s2].
      cbn [flat_map released handed_out app andb].
      destruct (NewArray_ok env); cbn [negb run fst snd transcript];
        destruct (ev =? 0); split; reflexivity.
  - destruct (eng unit (quiche_h3_event_free slot) s) as [[] s0].
    destruct (eng _ (quiche_h3_conn_poll h3 conn) s0) as [[sid ev] s1].
    cbn [flat_map released handed_out fst snd app].
    destruct (sid <? 0) eqn:E; cbn [run transcript fst snd flat_map].
    + apply Z.ltb_lt in E.
      replace (0 <=? sid) with false by (symmetry; apply Z.leb_gt; exact E).
      split; reflexivity.
    + apply Z.ltb_ge in E.
      replace (0 <=? sid) with true by (symmetry; apply Z.leb_le; exact E).
      destruct (eng _ (quiche_h3_event_type ev) s1) as [ty s2].
      cbn [flat_map released handed_out app andb].
      destruct (NewArray_ok env); cbn [negb run fst snd transcript];
        destruct (ev =? 0); split; reflexivity.
Qed.

Lemma free_releases (env : JNIEnv) (h3 slot : Z) (s : S) :
  let p := h3_jni.quiche_1h3_1conn_1free env h3 slot in
  flat_map released (transcript eng p s) = pending slot /\
  flat_map handed_out (transcript eng p s) = [] /\
  snd (fst (run eng p s)) = 0.
Proof.
  cbv zeta. unfold h3_jni.quiche_1h3_1conn_1free, pending.
  cbn [bind call run transcript].
  destruct (eng unit (quiche_h3_conn_free h3) s) as [[] s0].
  destruct (slot =? 0) eqn:E; cbn [negb bind call run transcript].
  - apply Z.eqb_eq in E. subst slot. repeat split.
  - destruct (eng unit (quiche_h3_event_free slot) s0) as [[] s1].
    repeat split.
Qed.

Lemma poll_all_balance (env : JNIEnv) (polls : list (Z * Z)) :
  forall (slot : Z) (s : S),
    let p := poll_all env polls slot in
    flat_map released (transcript eng p s) ++ pending (fst (run eng p s))
    = pending slot ++ flat_map handed_out (transcript eng p s).
Proof.
  induction polls as [| [h3 conn] rest IH]; intros slot s; cbv zeta.
  - cbn [poll_all transcript run fst flat_map app]. rewrite app_nil_r.
    reflexivity.
  - cbn [poll_all]. rewrite transcript_bind, run_bind, !flat_map_app.
    destruct (poll_releases_and_keeps env h3 conn slot s) as [Hrel Hout].
    cbv zeta in Hrel, Hout. rewrite Hrel, Hout.
    destruct (run eng (h3_jni.quiche_1h3_1conn_1poll env h3 conn slot) s)
      as [[result slot'] s'].
    cbn [fst snd]. specialize (IH slot' s'). cbv zeta in IH.
    rewrite <- !app_assoc, IH. reflexivity.
Qed.

(** X15: over any run of polls followed by the free of a session, on one
    thread, the events released are, in order, what the slot held at the
    start followed by the events the engine handed out: every cached event
    is released once, nothing else is, and the slot ends empty. *)
Theorem cached_events_are_released_once
    (env : JNIEnv) (polls : list (Z * Z)) (h3 slot : Z) (s : S) :
  let p := polls_then_free env polls h3 slot in
  flat_map released (transcript eng p s)
  = pending slot ++ flat_map handed_out (transcript eng p s) /\
  snd (fst (run eng p s)) = 0.
Proof.
  cbv zeta. unfold polls_then_free.
  rewrite transcript_bind, run_bind, !flat_map_app.
  pose proof (poll_all_balance env polls slot s) as Hpolls.
  cbv zeta in Hpolls.
  destruct (free_releases env h3 (fst (run eng (poll_all env polls slot) s))
              (snd (run eng (poll_all env polls slot) s)))
    as (Hrel & Hout & Hslot).
  cbv zeta in Hrel, Hout, Hslot.
  rewrite Hrel, Hout, app_nil_r, Hpolls. split; [reflexivity | exact Hslot].
Qed.

End Transcripts.

Example three_polls_then_free :
  flat_map released
    (transcript (scripted_engine sample_headers)
       (polls_then_free plain_env [(9, 7); (9, 7); (9, 7)] 9 0)
       [(9, 0, 100); (9, 4, 200)])
  = [100; 200].
Proof. reflexivity. Qed.

(** ** System nameservers *)










